(** * Sign-up database bootstrap: schema, index and seed reconciliation

    A shallow embedding of [init_mongo.js] (the mongosh initialisation
    script) and of the exit handling of [init_db.js], with the properties
    of the reconciliation sequence stated over it.

    The script talks to the store only through the mongosh [db] object.
    It is embedded as a program in a small monad that threads the state
    of the environment, records every shell call and every printed line,
    and stops at the first exception (the script has no [try]/[catch]).
    The shell itself is an interface ([Shell]); the script is written
    once, over any implementation of it. *)

From stdpp Require Import gmap strings list fin_maps pretty.
From Stdlib Require Import ZArith Ascii.

Open Scope string_scope.
Open Scope list_scope.
Set Warnings "-register-all".

(** ** JavaScript values *)

Module JS.

(** The values the script builds: literals, dates, arrays and objects.
    An object keeps its properties in insertion order (the order of an
    index key document is significant to the store). *)
Inductive Value : Type :=
| VUndefined
| VNull
| VBool (b : bool)
| VNum (n : Z)
| VStr (s : string)
| VDate (ms : Z)
| VArr (items : list Value)
| VObj (props : list (string * Value)).

Abbreviation Obj := (list (string * Value)).

(** [o[k]] when [k] is an own property. *)
Fixpoint obj_lookup (k : string) (o : Obj) : option Value :=
  match o with
  | [] => None
  | (k', v) :: o' => if decide (k = k') then Some v else obj_lookup k o'
  end.

(** Property read [o.k]: [undefined] when the property is missing. *)
Definition obj_get (k : string) (o : Obj) : Value :=
  default VUndefined (obj_lookup k o).

(** Assignment [o[k] = v]: an existing property keeps its position, a new
    one is added last. *)
Fixpoint obj_set (k : string) (v : Value) (o : Obj) : Obj :=
  match o with
  | [] => [(k, v)]
  | (k', v') :: o' =>
      if decide (k = k') then (k, v) :: o' else (k', v') :: obj_set k v o'
  end.

(** [Object.assign(target, source)]: every own property of [source], in
    order, is assigned to [target]. *)
Definition Object_assign (target source : Obj) : Obj :=
  foldl (fun t kv => obj_set kv.1 kv.2 t) target source.

(** [Array.prototype.includes] on an array of strings. *)
Definition includes (xs : list string) (x : string) : bool :=
  bool_decide (x ∈ xs).

End JS.
Export JS.

(** ** The mongosh interface *)

(** An index description: the argument of [createIndex] and an element of
    the result of [getIndexes]. *)
Record IndexSpec : Type := mkIndexSpec {
  idx_key : Obj;
  idx_name : string;
  idx_unique : option bool;
  idx_partialFilterExpression : option Value
}.

(** Any failure of the store (connectivity, permission, constraint,
    malformed schema). mongosh raises it as an exception, also for
    [db.runCommand]: a command the server answers with [ok: 0] throws
    instead of returning that reply. *)
Inductive StoreError : Type :=
| MongoServerError (codeName : string).

Inductive Result (A : Type) : Type :=
| Ok (a : A)
| Thrown (e : StoreError).
Arguments Ok {A} a.
Arguments Thrown {A} e.

(** The calls on [db] and on collection handles that reach the store. *)
Inductive Call : Type :=
| GetCollectionNames
| CreateCollection (name : string) (options : Obj)
| RunCommand (command : Obj)
| GetIndexes (coll : string)
| CreateIndex (coll : string) (keys : Obj) (options : IndexSpec)
| EstimatedDocumentCount (coll : string)
| InsertMany (coll : string) (docs : list Obj).

(** What a run leaves behind, in order: calls made and lines printed. *)
Inductive Event : Type :=
| Called (c : Call)
| Printed (line : string).

(** The shell over an environment state [St] (store, clock, ...). Every
    call that reaches the store may throw, and returns the state it
    leaves. *)
Record Shell (St : Type) : Type := mkShell {
  sh_getName : St -> string;
  sh_getCollectionNames : St -> St * Result (list string);
  sh_createCollection : string -> Obj -> St -> St * Result unit;
  sh_runCommand : Obj -> St -> St * Result Value;
  sh_getIndexes : string -> St -> St * Result (list IndexSpec);
  sh_createIndex : string -> Obj -> IndexSpec -> St -> St * Result string;
  sh_estimatedDocumentCount : string -> St -> St * Result N;
  sh_insertMany : string -> list Obj -> St -> St * Result unit;
  sh_newDate : St -> St * Z
}.
Arguments sh_getName {St} _ _.
Arguments sh_getCollectionNames {St} _ _.
Arguments sh_createCollection {St} _ _ _ _.
Arguments sh_runCommand {St} _ _ _.
Arguments sh_getIndexes {St} _ _ _.
Arguments sh_createIndex {St} _ _ _ _ _.
Arguments sh_estimatedDocumentCount {St} _ _ _.
Arguments sh_insertMany {St} _ _ _ _.
Arguments sh_newDate {St} _ _.

(** ** The script monad *)

Record Outcome (St A : Type) : Type := mkOutcome {
  final : St;
  trace : list Event;
  result : Result A
}.
Arguments mkOutcome {St A} _ _ _.
Arguments final {St A} _.
Arguments trace {St A} _.
Arguments result {St A} _.

Definition M (St A : Type) : Type := St -> Outcome St A.

Definition ret {St A} (a : A) : M St A :=
  fun s => mkOutcome s [] (Ok a).

(** Sequencing: an exception in the first part skips the rest. *)
Definition bind {St A B} (m : M St A) (k : A -> M St B) : M St B :=
  fun s =>
    let o := m s in
    match result o with
    | Ok a =>
        let o' := k a (final o) in
        mkOutcome (final o') (trace o ++ trace o') (result o')
    | Thrown e => mkOutcome (final o) (trace o) (Thrown e)
    end.

Notation "'let!' x ':=' m 'in' k" := (bind m (fun x => k))
  (at level 10, x name, m at level 100, k at level 200,
   format "'[v' 'let!'  x  ':='  m  'in' '/' k ']'").
Notation "m ';;;' k" := (bind m (fun _ => k))
  (at level 100, k at level 200, right associativity,
   format "'[v' m ';;;' '/' k ']'").

(** A call that reaches the store. *)
Definition call {St A} (c : Call) (f : St -> St * Result A) : M St A :=
  fun s => let r := f s in mkOutcome r.1 [Called c] r.2.

(** [print(line)]. *)
Definition print {St} (line : string) : M St unit :=
  fun s => mkOutcome s [Printed line] (Ok tt).

(** [xs.forEach(f)]. *)
Fixpoint forEach {St A} (f : A -> M St unit) (xs : list A) : M St unit :=
  match xs with
  | [] => ret tt
  | x :: xs' => f x ;;; forEach f xs'
  end.

(** The store calls a run made, and the lines it printed. *)
Definition calls (t : list Event) : list Call :=
  omap (fun e => match e with Called c => Some c | Printed _ => None end) t.

Definition printed (t : list Event) : list string :=
  omap (fun e => match e with Printed l => Some l | Called _ => None end) t.

(** ** init_mongo.js *)

Module InitMongo.

Section Script.
Context {St : Type} (db : Shell St).

(** [ensureCollectionWithValidator(db, name, validator, options = {})].
    [options] is [None] when the argument is omitted. *)
Definition ensureCollectionWithValidator
    (name : string) (validator : Value) (options : option Obj) : M St unit :=
  let options := default [] options in
  let! names := call GetCollectionNames (sh_getCollectionNames db) in
  let existing := includes names name in
  if negb existing then
    let createOpts :=
      Object_assign
        [ ("validator", VObj [("$jsonSchema", validator)]);
          ("validationLevel", VStr "moderate");
          ("validationAction", VStr "error") ]
        options in
    call (CreateCollection name createOpts)
         (sh_createCollection db name createOpts) ;;;
    print ("✓ Created collection '" +:+ name +:+ "' with schema validation")
  else
    let command :=
      [ ("collMod", VStr name);
        ("validator", VObj [("$jsonSchema", validator)]);
        ("validationLevel", VStr "moderate");
        ("validationAction", VStr "error") ] in
    call (RunCommand command) (sh_runCommand db command) ;;;
    print ("✓ Updated validator for existing collection '" +:+ name +:+ "'").

(** The callback of [indexSpecs.forEach] in [ensureIndexes]: [coll] is
    the handle on collection [name], [existing] the live index names. *)
Definition ensureIndexes_callback (name : string) (existing : list string)
    (idx : IndexSpec) : M St unit :=
  if negb (includes existing (idx_name idx)) then
    call (CreateIndex name (idx_key idx) idx)
         (sh_createIndex db name (idx_key idx) idx) ;;;
    print ("✓ Created index '" +:+ idx_name idx
           +:+ "' on collection '" +:+ name +:+ "'")
  else
    print ("• Index '" +:+ idx_name idx
           +:+ "' already exists on '" +:+ name +:+ "'").

(** [ensureIndexes(db, name, indexSpecs)]. The live names are read once,
    before the loop. *)
Definition ensureIndexes (name : string) (indexSpecs : list IndexSpec)
    : M St unit :=
  let! indexes := call (GetIndexes name) (sh_getIndexes db name) in
  let existing := map idx_name indexes in
  forEach (ensureIndexes_callback name existing) indexSpecs.

End Script.

(** Users collection schema. *)
Definition usersSchema : Value :=
  VObj [
    ("bsonType", VStr "object");
    ("required", VArr [VStr "email"; VStr "passwordHash"; VStr "onboarding"]);
    ("additionalProperties", VBool true);
    ("properties", VObj [
      ("_id", VObj [("bsonType", VArr [VStr "objectId"])]);
      ("email", VObj [
        ("bsonType", VStr "string");
        ("description", VStr "User's email; unique, lowercased")]);
      ("username", VObj [
        ("bsonType", VArr [VStr "string"; VStr "null"]);
        ("description", VStr "Optional username; unique if present")]);
      ("passwordHash", VObj [
        ("bsonType", VArr [VStr "string"; VStr "null"]);
        ("description",
         VStr "BCrypt/Argon2 hashed password; null when OAuth-only")]);
      ("oauthProvider", VObj [
        ("bsonType", VArr [VStr "string"; VStr "null"]);
        ("enum", VArr [VNull; VStr "google"; VStr "apple"]);
        ("description", VStr "OAuth provider name if used")]);
      ("oauthProviderId", VObj [
        ("bsonType", VArr [VStr "string"; VStr "null"]);
        ("description", VStr "Provider's unique user ID if OAuth used")]);
      ("emailVerified", VObj [
        ("bsonType", VStr "bool");
        ("description", VStr "Has the user verified their email");
        ("default", VBool false)]);
      ("onboarding", VObj [
        ("bsonType", VStr "object");
        ("required", VArr [VStr "currentStep"; VStr "completedSteps"]);
        ("properties", VObj [
          ("currentStep", VObj [
            ("bsonType", VStr "int");
            ("minimum", VNum 0);
            ("description", VStr "Current onboarding step index")]);
          ("completedSteps", VObj [
            ("bsonType", VStr "array");
            ("items", VObj [("bsonType", VStr "string")]);
            ("description", VStr "List of completed step identifiers")]);
          ("startedAt", VObj [("bsonType", VArr [VStr "date"; VStr "null"])]);
          ("completedAt",
           VObj [("bsonType", VArr [VStr "date"; VStr "null"])])])]);
      ("createdAt", VObj [("bsonType", VStr "date")]);
      ("updatedAt", VObj [("bsonType", VStr "date")]);
      ("lastLoginAt", VObj [("bsonType", VArr [VStr "date"; VStr "null"])]);
      ("profile", VObj [
        ("bsonType", VArr [VStr "object"; VStr "null"]);
        ("additionalProperties", VBool true);
        ("properties", VObj [
          ("firstName", VObj [("bsonType", VArr [VStr "string"; VStr "null"])]);
          ("lastName", VObj [("bsonType", VArr [VStr "string"; VStr "null"])]);
          ("country", VObj [("bsonType", VArr [VStr "string"; VStr "null"])]);
          ("timezone", VObj [("bsonType", VArr [VStr "string"; VStr "null"])]);
          ("marketingOptIn",
           VObj [("bsonType", VArr [VStr "bool"; VStr "null"])])])])])].

(** Onboarding steps collection schema. *)
Definition onboardingStepsSchema : Value :=
  VObj [
    ("bsonType", VStr "object");
    ("required", VArr [VStr "key"; VStr "order"; VStr "title"]);
    ("additionalProperties", VBool true);
    ("properties", VObj [
      ("_id", VObj [("bsonType", VArr [VStr "objectId"])]);
      ("key", VObj [
        ("bsonType", VStr "string");
        ("description",
         VStr "Unique step identifier (e.g., 'account', 'profile', 'preferences')")]);
      ("order", VObj [
        ("bsonType", VStr "int");
        ("minimum", VNum 0);
        ("description", VStr "Display order for the step")]);
      ("title", VObj [("bsonType", VStr "string")]);
      ("description", VObj [("bsonType", VArr [VStr "string"; VStr "null"])]);
      ("isRequired", VObj [("bsonType", VStr "bool")]);
      ("createdAt", VObj [("bsonType", VStr "date")]);
      ("updatedAt", VObj [("bsonType", VStr "date")])])].

(** [{ $type: "string" }]. *)
Definition type_string : Value := VObj [("$type", VStr "string")].

(** The index list of the first [ensureIndexes] call. *)
Definition usersIndexes : list IndexSpec :=
  [ mkIndexSpec [("email", VNum 1)] "uniq_email" (Some true) None;
    mkIndexSpec [("username", VNum 1)] "uniq_username" (Some true)
      (Some (VObj [("username", type_string)]));
    mkIndexSpec [("oauthProvider", VNum 1); ("oauthProviderId", VNum 1)]
      "oauth_provider_id" (Some true)
      (Some (VObj [("oauthProvider", type_string);
                   ("oauthProviderId", type_string)]));
    mkIndexSpec [("onboarding.currentStep", VNum 1)] "onboarding_currentStep"
      None None;
    mkIndexSpec [("createdAt", VNum (-1))] "createdAt_desc" None None;
    mkIndexSpec [("updatedAt", VNum (-1))] "updatedAt_desc" None None ].

(** The index list of the second [ensureIndexes] call. *)
Definition onboardingStepsIndexes : list IndexSpec :=
  [ mkIndexSpec [("key", VNum 1)] "uniq_key" (Some true) None;
    mkIndexSpec [("order", VNum 1)] "order_asc" None None ].

(** The argument of [insertMany], for the clock reading [now]. *)
Definition defaultSteps (now : Z) : list Obj :=
  [ [ ("key", VStr "account");
      ("order", VNum 0);
      ("title", VStr "Create Account");
      ("description",
       VStr "Set your email and password or use an OAuth provider.");
      ("isRequired", VBool true);
      ("createdAt", VDate now);
      ("updatedAt", VDate now) ];
    [ ("key", VStr "profile");
      ("order", VNum 1);
      ("title", VStr "Complete Profile");
      ("description",
       VStr "Tell us about yourself to personalize your experience.");
      ("isRequired", VBool true);
      ("createdAt", VDate now);
      ("updatedAt", VDate now) ];
    [ ("key", VStr "preferences");
      ("order", VNum 2);
      ("title", VStr "Preferences");
      ("description",
       VStr "Choose your interests and notification settings.");
      ("isRequired", VBool false);
      ("createdAt", VDate now);
      ("updatedAt", VDate now) ];
    [ ("key", VStr "summary");
      ("order", VNum 3);
      ("title", VStr "Summary");
      ("description", VStr "Review and confirm your details.");
      ("isRequired", VBool true);
      ("createdAt", VDate now);
      ("updatedAt", VDate now) ] ].

Section Main.
Context {St : Type} (db : Shell St).

(** "Seed default onboarding steps if not present": the block that reads
    the document count of [onboarding_steps] and inserts the default
    steps when it is [0]. *)
Definition seedIfEmpty : M St unit :=
  let! existingCount :=
    call (EstimatedDocumentCount "onboarding_steps")
         (sh_estimatedDocumentCount db "onboarding_steps") in
  if bool_decide (existingCount = 0%N) then
    let! now := (fun s => let r := sh_newDate db s in mkOutcome r.1 [] (Ok r.2)) in
    call (InsertMany "onboarding_steps" (defaultSteps now))
         (sh_insertMany db "onboarding_steps" (defaultSteps now)) ;;;
    print "✓ Seeded onboarding_steps with default steps"
  else
    print ("• onboarding_steps already contains " +:+ pretty existingCount
           +:+ " documents").

(** "Create collections or update validators": the two calls of
    [ensureCollectionWithValidator]. *)
Definition ensureCollections : M St unit :=
  ensureCollectionWithValidator db "users" usersSchema None ;;;
  ensureCollectionWithValidator db "onboarding_steps" onboardingStepsSchema None.

(** "Ensure indexes": the two calls of [ensureIndexes]. *)
Definition ensureAllIndexes : M St unit :=
  ensureIndexes db "users" usersIndexes ;;;
  ensureIndexes db "onboarding_steps" onboardingStepsIndexes.

(** The body of the script, from [db.getName()] to the last [print]. *)
Definition init_mongo : M St unit :=
  let! currentDB := (fun s => mkOutcome s [] (Ok (sh_getName db s))) in
  ensureCollections ;;;
  ensureAllIndexes ;;;
  seedIfEmpty ;;;
  print ("Initialization complete on database '" +:+ currentDB +:+ "'").

End Main.

End InitMongo.

(** ** init_db.js: the launcher's exit handling *)

Module InitDb.

(** What [spawnSync] returns: [error] when the child could not be run,
    [status] the child's exit code ([null], here [None], when a signal
    ended it). *)
Record SpawnResult : Type := mkSpawnResult {
  error : option string;
  status : option Z
}.

(** [!v] for an environment variable: unset or empty. *)
Definition missing (v : option string) : bool :=
  match v with
  | None => true
  | Some s => bool_decide (s = "")
  end.

(** The exit code of [node init_db.js], from the two environment
    variables on: [1] when one is missing or the child could not be run,
    [result.status || 0] otherwise. *)
Definition init_db (url dbName : option string) (initScript : string)
    (spawnSync : string -> list string -> SpawnResult) : Z :=
  if missing url || missing dbName then 1%Z
  else
    let args :=
      [default "" url +:+ "/" +:+ default "" dbName; "--file"; initScript] in
    let result := spawnSync "mongosh" args in
    match error result with
    | Some _ => 1%Z
    | None =>
        match status result with
        | Some n => if bool_decide (n = 0%Z) then 0%Z else n
        | None => 0%Z
        end
    end.

End InitDb.

(** ** init_db.js: loading the environment file and running the shell *)

Module Launcher.
Import InitDb.

(** Strings are the UTF-8 bytes of the text, as in the file read with
    [readFileSync(envPath, 'utf8')]. The separators the launcher looks
    for ([\n], [=], the two quotes, the prefix [export ]) are single
    bytes, so cutting at them is the same on bytes and on characters. *)

Definition dquote : ascii := ascii_of_nat 34.
Definition squote : ascii := ascii_of_nat 39.

Definition code (a : ascii) : N := N_of_ascii a.

(** What [trim] removes: the white space and line terminator characters
    of the language, here by their UTF-8 encodings. One byte: tab, line
    feed, vertical tab, form feed, carriage return, space. *)
Definition ws1 (a : ascii) : bool :=
  bool_decide (code a ∈ [9; 10; 11; 12; 13; 32]%N).

(** Two bytes: U+00A0. *)
Definition ws2 (a b : ascii) : bool :=
  bool_decide ((code a, code b) = (194, 160)%N).

(** Three bytes: U+1680, U+2000 to U+200A, U+2028, U+2029, U+202F,
    U+205F, U+3000, U+FEFF. *)
Definition ws3 (a b c : ascii) : bool :=
  bool_decide
    ((code a, code b, code c) ∈
       [ (225, 154, 128); (226, 128, 128); (226, 128, 129); (226, 128, 130);
         (226, 128, 131); (226, 128, 132); (226, 128, 133); (226, 128, 134);
         (226, 128, 135); (226, 128, 136); (226, 128, 137); (226, 128, 138);
         (226, 128, 168); (226, 128, 169); (226, 128, 175); (226, 129, 159);
         (227, 128, 128); (239, 187, 191) ]%N).

(** Dropping the white space a text starts with; [w2] and [w3] say how
    the two- and three-byte characters read in the direction of travel. *)
Fixpoint strip (w2 : ascii -> ascii -> bool)
    (w3 : ascii -> ascii -> ascii -> bool) (l : list ascii) : list ascii :=
  match l with
  | [] => []
  | a :: l1 =>
      if ws1 a then strip w2 w3 l1
      else
        match l1 with
        | [] => l
        | b :: l2 =>
            if w2 a b then strip w2 w3 l2
            else
              match l2 with
              | [] => l
              | c :: l3 => if w3 a b c then strip w2 w3 l3 else l
              end
        end
  end.

(** [s.trim()]: white space dropped from the start, then from the end. *)
Definition trim (s : string) : string :=
  let front := strip ws2 ws3 (String.list_ascii_of_string s) in
  String.string_of_list_ascii
    (reverse (strip (fun b a => ws2 a b) (fun c b a => ws3 a b c)
                (reverse front))).

(** [s.substring(n)]. *)
Fixpoint substring_from (n : nat) (s : string) : string :=
  match n, s with
  | O, _ => s
  | S n', String.String _ s' => substring_from n' s'
  | S _, "" => ""
  end.

(** [s.split(c)] for a one-character separator: never empty. *)
Fixpoint split (c : ascii) (s : string) : list string :=
  match s with
  | "" => [""]
  | String.String a s' =>
      if bool_decide (a = c) then "" :: split c s'
      else
        match split c s' with
        | piece :: pieces => String.String a piece :: pieces
        | [] => [String.String a ""]
        end
  end.

(** [s.startsWith(c)] and [s.endsWith(c)] for a one-character [c]. *)
Definition startsWith (c : ascii) (s : string) : bool :=
  match s with
  | String.String a _ => bool_decide (a = c)
  | "" => false
  end.

Fixpoint endsWith (c : ascii) (s : string) : bool :=
  match s with
  | "" => false
  | String.String a s' =>
      match s' with
      | "" => bool_decide (a = c)
      | String.String _ _ => endsWith c s'
      end
  end.

(** The quote handling of the launcher: a value that starts and ends
    with the same quote character loses [val.slice(1, -1)]'s two ends. *)
Definition unquote (val : string) : string :=
  if (startsWith dquote val && endsWith dquote val)
     || (startsWith squote val && endsWith squote val)
  then String.substring 1 (String.length val - 2) val
  else val.

(** What one line of the file assigns, if anything: the body of the
    callback of [content.split('\n').forEach], up to the assignment. *)
Definition assignment (line : string) : option (string * string) :=
  let trimmed := trim line in
  if String.prefix "export " trimmed then
    match split "=" (substring_from 7 trimmed) with
    | key :: rest =>
        if negb (bool_decide (key = "")) && bool_decide (0 < length rest)
        then Some (key, unquote (String.concat "=" rest))
        else None
    | [] => None
    end
  else None.

(** [process.env[key] = val] for the line, when it assigns. *)
Definition load_line (env : gmap string string) (line : string)
    : gmap string string :=
  match assignment line with
  | Some (key, val) => <[key := val]> env
  | None => env
  end.

(** The environment after the file with text [content] is loaded. *)
Definition load_env (content : string) (env : gmap string string)
    : gmap string string :=
  foldl load_line env (split (ascii_of_nat 10) content).

(** What the launcher writes to the console, and which programs it
    runs. *)
Inductive Console : Type :=
| ConsoleLog (line : string)
| ConsoleError (line : string)
| ConsoleErrorWith (label : string) (err : string).

Record Run : Type := mkRun {
  exit_code : Z;
  console : list Console;
  spawned : list (string * list string)
}.

(** [node init_db.js]: [envFile] is the text of [db_visualizer/mongodb.env]
    when the file exists, [env] the environment of the process,
    [initScript] the path of [init_mongo.js]. *)
Definition main (envFile : option string) (env : gmap string string)
    (initScript : string)
    (spawnSync : string -> list string -> SpawnResult) : Run :=
  let env :=
    match envFile with
    | Some content => load_env content env
    | None => env
    end in
  let url := env !! "MONGODB_URL" in
  let dbName := env !! "MONGODB_DB" in
  if missing url || missing dbName then
    mkRun 1
      [ ConsoleError
          "Missing environment variables. Ensure MONGODB_URL and MONGODB_DB are set." ]
      []
  else
    let args :=
      [default "" url +:+ "/" +:+ default "" dbName; "--file"; initScript] in
    let banner :=
      ConsoleLog ("Running init script: mongosh " +:+ String.concat " " args) in
    let result := spawnSync "mongosh" args in
    match error result with
    | Some e =>
        mkRun 1 [banner; ConsoleErrorWith "Error running mongosh:" e]
          [("mongosh", args)]
    | None =>
        mkRun
          (match status result with
           | Some n => if bool_decide (n = 0%Z) then 0%Z else n
           | None => 0%Z
           end)
          [banner] [("mongosh", args)]
    end.

(** An environment file as [startup.sh] leaves it, with a comment, a
    quoted value and a variable assigned twice. *)
Definition newline : string := String.String (ascii_of_nat 10) "".

Definition sample_file : string :=
  "# written by startup.sh" +:+ newline
  +:+ "export MONGODB_URL='mongodb://localhost:5000'" +:+ newline
  +:+ "export MONGODB_DB=test" +:+ newline
  +:+ "export MONGODB_DB=myapp" +:+ newline.

End Launcher.

(** ** A model of the store

    The database as the script observes it: named collections, each with
    its options (validator and validation policy), its indexes and its
    documents. Whether the store agrees to build an index over the
    documents of a collection, and whether it accepts a document into a
    collection (validator, unique indexes), are left open: the model
    takes them as [can_build] and [accepts]. *)

Module Mongo.

Record Collection : Type := mkCollection {
  coll_options : Obj;
  coll_indexes : list IndexSpec;
  coll_docs : list Obj
}.

Record Db : Type := mkDb {
  db_name : string;
  db_collections : gmap string Collection;
  db_clock : Z
}.

Definition with_collections (d : Db) (cs : gmap string Collection) : Db :=
  mkDb (db_name d) cs (db_clock d).

Definition with_clock (d : Db) (t : Z) : Db :=
  mkDb (db_name d) (db_collections d) t.

(** Every collection is born with the index on [_id]. *)
Definition id_index : IndexSpec :=
  mkIndexSpec [("_id", VNum 1)] "_id_" None None.

Definition newCollection (options : Obj) : Collection :=
  mkCollection options [id_index] [].

(** The collection a write goes to: writing to a missing collection
    creates it. *)
Definition target (d : Db) (name : string) : Collection :=
  default (newCollection []) (db_collections d !! name).

(** The options [collMod] changes. *)
Definition collMod_options (command : Obj) : Obj :=
  filter
    (fun kv => kv.1 ∈ ["validator"; "validationLevel"; "validationAction"])
    command.

Section Model.
Variable can_build : Collection -> IndexSpec -> bool.
Variable accepts : Collection -> Obj -> bool.

Definition getCollectionNames (d : Db) : Db * Result (list string) :=
  (d, Ok (map_to_list (db_collections d)).*1).

Definition createCollection (name : string) (options : Obj) (d : Db)
    : Db * Result unit :=
  match db_collections d !! name with
  | Some _ => (d, Thrown (MongoServerError "NamespaceExists"))
  | None =>
      (with_collections d (<[name := newCollection options]> (db_collections d)),
       Ok tt)
  end.

Definition runCommand (command : Obj) (d : Db) : Db * Result Value :=
  match obj_lookup "collMod" command with
  | Some (VStr name) =>
      match db_collections d !! name with
      | Some c =>
          let c' :=
            mkCollection
              (Object_assign (coll_options c) (collMod_options command))
              (coll_indexes c) (coll_docs c) in
          (with_collections d (<[name := c']> (db_collections d)),
           Ok (VObj [("ok", VNum 1)]))
      | None => (d, Thrown (MongoServerError "NamespaceNotFound"))
      end
  | _ => (d, Thrown (MongoServerError "CommandNotFound"))
  end.

Definition getIndexes (name : string) (d : Db)
    : Db * Result (list IndexSpec) :=
  match db_collections d !! name with
  | Some c => (d, Ok (coll_indexes c))
  | None => (d, Thrown (MongoServerError "NamespaceNotFound"))
  end.

Definition createIndex (name : string) (keys : Obj) (options : IndexSpec)
    (d : Db) : Db * Result string :=
  let c := target d name in
  let idx :=
    mkIndexSpec keys (idx_name options) (idx_unique options)
      (idx_partialFilterExpression options) in
  if can_build c idx then
    let indexes :=
      if includes (map idx_name (coll_indexes c)) (idx_name idx)
      then coll_indexes c
      else coll_indexes c ++ [idx] in
    (with_collections d
       (<[name := mkCollection (coll_options c) indexes (coll_docs c)]>
          (db_collections d)),
     Ok (idx_name idx))
  else (d, Thrown (MongoServerError "CannotCreateIndex")).

Definition estimatedDocumentCount (name : string) (d : Db) : Db * Result N :=
  (d, Ok (N.of_nat (length (coll_docs (target d name))))).

(** An ordered bulk insert: documents land one by one, and the first one
    the store refuses ends the insert with the earlier ones in place. *)
Fixpoint insert_ordered (c : Collection) (docs : list Obj)
    : Collection * Result unit :=
  match docs with
  | [] => (c, Ok tt)
  | doc :: rest =>
      if accepts c doc then
        insert_ordered
          (mkCollection (coll_options c) (coll_indexes c) (coll_docs c ++ [doc]))
          rest
      else (c, Thrown (MongoServerError "DocumentValidationFailure"))
  end.

Definition insertMany (name : string) (docs : list Obj) (d : Db)
    : Db * Result unit :=
  match docs with
  | [] => (d, Thrown (MongoServerError "InvalidArgument"))
  | _ =>
      let r := insert_ordered (target d name) docs in
      (with_collections d (<[name := r.1]> (db_collections d)), r.2)
  end.

(** Reading the clock; time passes. *)
Definition newDate (d : Db) : Db * Z :=
  (with_clock d (db_clock d + 1), db_clock d).

Definition shell : Shell Db :=
  mkShell Db db_name getCollectionNames createCollection runCommand
    getIndexes createIndex estimatedDocumentCount insertMany newDate.

End Model.

(** A store that builds every index and accepts every document. *)
Definition permissive : Shell Db := shell (fun _ _ => true) (fun _ _ => true).

(** A connection whose user may read but not write: every write is
    refused. *)
Definition unauthorized : StoreError := MongoServerError "Unauthorized".

Definition read_only : Shell Db :=
  mkShell Db db_name getCollectionNames
    (fun _ _ d => (d, Thrown unauthorized))
    (fun _ d => (d, Thrown unauthorized))
    getIndexes
    (fun _ _ _ d => (d, Thrown unauthorized))
    estimatedDocumentCount
    (fun _ _ d => (d, Thrown unauthorized))
    newDate.

(** A connection whose user may change collections but not create them. *)
Definition cannot_create : Shell Db :=
  mkShell Db db_name getCollectionNames
    (fun _ _ d => (d, Thrown unauthorized))
    runCommand getIndexes
    (createIndex (fun _ _ => true))
    estimatedDocumentCount
    (insertMany (fun _ _ => true))
    newDate.



(** A database with no collections. *)
Definition fresh (name : string) (now : Z) : Db := mkDb name ∅ now.

(** A database with one collection. *)
Definition single (name : string) (coll : string) (c : Collection) (now : Z)
    : Db :=
  mkDb name {[ coll := c ]} now.

(** A database where [users] exists, with no validator, and still has an
    index named [uniq_email] whose definition is not the requested one
    (on [username], not unique). *)
Definition legacy_users : Db :=
  single "myapp" "users"
    (mkCollection []
       [ id_index; mkIndexSpec [("username", VNum 1)] "uniq_email" None None ]
       [])
    0.


(** A database that has both collections, every index of the script and
    one step. *)
Definition reconciled : Db :=
  mkDb "myapp"
    (<["users" := mkCollection [] (id_index :: InitMongo.usersIndexes) []]>
       (<["onboarding_steps" :=
            mkCollection [] (id_index :: InitMongo.onboardingStepsIndexes)
              [ [("key", VStr "welcome")] ]]> ∅))
    0.

End Mongo.

(** ** Observations on a run *)

Import InitMongo.

(** The options a created collection gets when the caller passes none. *)
Definition defaultCreateOptions (validator : Value) : Obj :=
  [ ("validator", VObj [("$jsonSchema", validator)]);
    ("validationLevel", VStr "moderate");
    ("validationAction", VStr "error") ].

(** The command of the update branch. *)
Definition collModCommand (name : string) (validator : Value) : Obj :=
  [ ("collMod", VStr name);
    ("validator", VObj [("$jsonSchema", validator)]);
    ("validationLevel", VStr "moderate");
    ("validationAction", VStr "error") ].


Definition createIndexCall (name : string) (idx : IndexSpec) : Call :=
  CreateIndex name (idx_key idx) idx.

(** The documents handed to [insertMany], over a whole run. *)
Definition inserted (t : list Event) : list Obj :=
  concat (omap (fun c => match c with InsertMany _ docs => Some docs
                                    | _ => None end) (calls t)).

(** The names of the collections a run created, and the (collection,
    index name) pairs of the indexes it created. *)
Definition createdCollections (t : list Event) : list string :=
  omap (fun c => match c with CreateCollection name _ => Some name
                            | _ => None end) (calls t).

Definition createdIndexes (t : list Event) : list (string * string) :=
  omap (fun c => match c with CreateIndex coll _ idx => Some (coll, idx_name idx)
                            | _ => None end) (calls t).

(** The key, order and required flag of a seed record. *)
Definition step_summary (doc : Obj) : Value * Value * Value :=
  (obj_get "key" doc, obj_get "order" doc, obj_get "isRequired" doc).

(** The fresh-database scenario: two collections created, [n] indexes
    created in all, [nUsers] of them on [users] and [nSteps] on
    [onboarding_steps], with the eight names below in this order, and
    four seed records inserted. *)
Definition fresh_scenario (n nUsers nSteps : nat) (t : list Event) : Prop :=
  createdCollections t = [ "users"; "onboarding_steps" ]
  ∧ length (createdIndexes t) = n
  ∧ length (filter (fun p => p.1 = "users") (createdIndexes t)) = nUsers
  ∧ length (filter (fun p => p.1 = "onboarding_steps") (createdIndexes t))
      = nSteps
  ∧ (createdIndexes t).*2 =
      [ "uniq_email"; "uniq_username"; "oauth_provider_id";
        "onboarding_currentStep"; "createdAt_desc"; "updatedAt_desc";
        "uniq_key"; "order_asc" ]
  ∧ length (inserted t) = 4.


(** The lines the script prints. *)
Definition createdIndexLine (name : string) (idx : IndexSpec) : string :=
  "✓ Created index '" +:+ idx_name idx +:+ "' on collection '" +:+ name +:+ "'".

Definition existingIndexLine (name : string) (idx : IndexSpec) : string :=
  "• Index '" +:+ idx_name idx +:+ "' already exists on '" +:+ name +:+ "'".

Definition indexLine (live : list IndexSpec) (name : string) (idx : IndexSpec)
    : string :=
  if includes (map idx_name live) (idx_name idx)
  then existingIndexLine name idx
  else createdIndexLine name idx.

Definition updatedLine (name : string) : string :=
  "✓ Updated validator for existing collection '" +:+ name +:+ "'".

Definition countLine (n : N) : string :=
  "• onboarding_steps already contains " +:+ pretty n +:+ " documents".

Definition completionLine (database : string) : string :=
  "Initialization complete on database '" +:+ database +:+ "'".

(** A line that starts with one of the two marks of the steps, [✓] or
    [•]: both start with the byte 226. *)
Definition marked (line : string) : Prop :=
  exists rest, line = String.String (ascii_of_nat 226) rest.

(** Properties of a part of the script, over every state: its lines are
    marked; and when it throws, the last thing in its trace is a call. *)
Definition prints_marked {St A} (m : M St A) : Prop :=
  forall s, Forall marked (printed (trace (m s))).


(** ** Reconciled stores *)

Module Reconciled.
Import Mongo.

(** The collection exists and already has the validator and the policy
    that the modify command for [validator] sets. *)
Definition settled (name : string) (validator : Value)
    (cs : gmap string Collection) : Prop :=
  exists c,
    cs !! name = Some c
    ∧ Object_assign (coll_options c)
        (collMod_options (collModCommand name validator)) = coll_options c.

(** The collection exists and has an index for every name of [specs]. *)
Definition indexed (name : string) (specs : list IndexSpec)
    (cs : gmap string Collection) : Prop :=
  exists c,
    cs !! name = Some c
    ∧ forall idx, idx ∈ specs -> idx_name idx ∈ map idx_name (coll_indexes c).

(** [onboarding_steps] exists and has a document. *)
Definition seeded (cs : gmap string Collection) : Prop :=
  exists c, cs !! "onboarding_steps" = Some c ∧ coll_docs c ≠ [].

(** From [cs] to [cs'] collections are kept, with their options, and
    index names are only added. *)
Definition grows (cs cs' : gmap string Collection) : Prop :=
  forall name c,
    cs !! name = Some c ->
    exists c',
      cs' !! name = Some c'
      ∧ coll_options c' = coll_options c
      ∧ map idx_name (coll_indexes c) ⊆ map idx_name (coll_indexes c').

(** The collection after one more index. *)
Definition add_index (c : Collection) (idx : IndexSpec) : Collection :=
  mkCollection (coll_options c)
    (if includes (map idx_name (coll_indexes c)) (idx_name idx)
     then coll_indexes c else coll_indexes c ++ [idx])
    (coll_docs c).

(** The collection [ensureCollectionWithValidator] leaves under [name]. *)
Definition ensured (name : string) (validator : Value)
    (cs : gmap string Collection) : Collection :=
  match cs !! name with
  | Some c =>
      mkCollection
        (Object_assign (coll_options c) (defaultCreateOptions validator))
        (coll_indexes c) (coll_docs c)
  | None => newCollection (defaultCreateOptions validator)
  end.

(** A part of the script leaves the collections [cs] as they are, from
    every state of the database that has them. *)
Definition fixed (m : M Db unit) (cs : gmap string Collection) : Prop :=
  forall d, db_collections d = cs -> db_collections (final (m d)) = cs.

(** A run that created no collection and no index and inserted nothing. *)
Definition creates_nothing (t : list Event) : Prop :=
  createdCollections t = [] ∧ createdIndexes t = [] ∧ inserted t = [].

(** A part of the script that, from every state with the collections
    [cs], ends well, leaves [cs] as they are and creates nothing. *)
Definition quiet (m : M Db unit) (cs : gmap string Collection) : Prop :=
  forall d,
    db_collections d = cs ->
    db_collections (final (m d)) = cs
    ∧ result (m d) = Ok tt
    ∧ creates_nothing (trace (m d)).

Definition fixed_thrown (m : M Db unit) (cs : gmap string Collection) : Prop :=
  forall d,
    db_collections d = cs ->
    db_collections (final (m d)) = cs ∧ exists e, result (m d) = Thrown e.

End Reconciled.

(** ** The monad and the objects *)

Section MonadFacts.
Context {St : Type}.

Lemma bind_ok {A B} (m : M St A) (k : A -> M St B) s a :
  result (m s) = Ok a ->
  bind m k s =
    mkOutcome (final (k a (final (m s))))
              (trace (m s) ++ trace (k a (final (m s))))
              (result (k a (final (m s)))).
Proof. intros H. unfold bind. by rewrite H. Qed.

Lemma bind_thrown {A B} (m : M St A) (k : A -> M St B) s e :
  result (m s) = Thrown e ->
  bind m k s = mkOutcome (final (m s)) (trace (m s)) (Thrown e).
Proof. intros H. unfold bind. by rewrite H. Qed.

Lemma final_bind_ok {A B} (m : M St A) (k : A -> M St B) s a :
  result (m s) = Ok a -> final (bind m k s) = final (k a (final (m s))).
Proof. intros H. by rewrite (bind_ok _ _ _ _ H). Qed.

Lemma result_bind_ok {A B} (m : M St A) (k : A -> M St B) s a :
  result (m s) = Ok a -> result (bind m k s) = result (k a (final (m s))).
Proof. intros H. by rewrite (bind_ok _ _ _ _ H). Qed.

Lemma final_bind_thrown {A B} (m : M St A) (k : A -> M St B) s e :
  result (m s) = Thrown e -> final (bind m k s) = final (m s).
Proof. intros H. by rewrite (bind_thrown _ _ _ _ H). Qed.

Lemma result_bind_thrown {A B} (m : M St A) (k : A -> M St B) s e :
  result (m s) = Thrown e -> result (bind m k s) = Thrown e.
Proof. intros H. by rewrite (bind_thrown _ _ _ _ H). Qed.

Lemma trace_bind_ok {A B} (m : M St A) (k : A -> M St B) s a :
  result (m s) = Ok a ->
  trace (bind m k s) = trace (m s) ++ trace (k a (final (m s))).
Proof. intros H. by rewrite (bind_ok _ _ _ _ H). Qed.

Lemma bind_outcome_ok {A B} (m : M St A) (k : A -> M St B) s s1 t a :
  m s = mkOutcome s1 t (Ok a) ->
  bind m k s =
    let o := k a s1 in mkOutcome (final o) (t ++ trace o) (result o).
Proof. intros H. unfold bind. by rewrite H. Qed.

Lemma bind_outcome_thrown {A B} (m : M St A) (k : A -> M St B) s s1 t e :
  m s = mkOutcome s1 t (Thrown e) ->
  bind m k s = mkOutcome s1 t (Thrown e).
Proof. intros H. unfold bind. by rewrite H. Qed.

Lemma bind_call_ok {A B} c (f : St -> St * Result A) (k : A -> M St B) s s1 a :
  f s = (s1, Ok a) ->
  bind (call c f) k s =
    let o := k a s1 in
    mkOutcome (final o) (Called c :: trace o) (result o).
Proof. intros H. unfold bind, call. by rewrite H. Qed.

Lemma bind_call_thrown {A B} c (f : St -> St * Result A) (k : A -> M St B)
    s s1 e :
  f s = (s1, Thrown e) ->
  bind (call c f) k s = mkOutcome s1 [Called c] (Thrown e).
Proof. intros H. unfold bind, call. by rewrite H. Qed.

Lemma calls_app (t1 t2 : list Event) : calls (t1 ++ t2) = calls t1 ++ calls t2.
Proof. unfold calls. apply omap_app. Qed.

End MonadFacts.

Section ObjectFacts.

Lemma obj_lookup_set k v o k' :
  obj_lookup k' (obj_set k v o) =
    if decide (k' = k) then Some v else obj_lookup k' o.
Proof.
  induction o as [|[k0 v0] o IH]; simpl.
  - by destruct (decide (k' = k)).
  - destruct (decide (k = k0)) as [->|Hne]; simpl.
    + by destruct (decide (k' = k0)).
    + destruct (decide (k' = k0)) as [->|]; [|done].
      by rewrite decide_False by congruence.
Qed.

(** A property the source does not mention keeps the target's value. *)
Lemma obj_lookup_assign_other k target source :
  obj_lookup k source = None ->
  obj_lookup k (Object_assign target source) = obj_lookup k target.
Proof.
  unfold Object_assign. revert target.
  induction source as [|[k0 v0] src IH]; intros target H; simpl in *; [done|].
  destruct (decide (k = k0)) as [->|Hne]; [done|].
  rewrite IH by done. simpl. rewrite obj_lookup_set. by rewrite decide_False.
Qed.

(** A property of the source wins over the target's. *)
Lemma obj_lookup_assign_source k v target source :
  NoDup source.*1 ->
  obj_lookup k source = Some v ->
  obj_lookup k (Object_assign target source) = Some v.
Proof.
  unfold Object_assign. revert target.
  induction source as [|[k0 v0] src IH]; intros target Hnd H; simpl in *; [done|].
  apply NoDup_cons in Hnd as [Hnotin Hnd].
  destruct (decide (k = k0)) as [->|Hne].
  - injection H as ->.
    assert (obj_lookup k0 src = None) as Hnone.
    { clear -Hnotin. induction src as [|[k1 v1] src IH]; simpl in *; [done|].
      apply not_elem_of_cons in Hnotin as [? ?].
      rewrite decide_False by done. by apply IH. }
    pose proof (obj_lookup_assign_other k0 (obj_set k0 v target) src Hnone) as E.
    unfold Object_assign in E. rewrite E, obj_lookup_set. by rewrite decide_True.
  - by apply IH.
Qed.

End ObjectFacts.

(** ** The schema reconciler *)

Section SchemaReconciler.
Context {St : Type} (db : Shell St).

Lemma ensureCollection_absent name validator options s s1 names :
  sh_getCollectionNames db s = (s1, Ok names) ->
  name ∉ names ->
  let createOpts :=
    Object_assign (defaultCreateOptions validator) (default [] options) in
  ensureCollectionWithValidator db name validator options s =
    let o :=
      (call (CreateCollection name createOpts)
            (sh_createCollection db name createOpts) ;;;
       print ("✓ Created collection '" +:+ name +:+ "' with schema validation"))
        s1 in
    mkOutcome (final o) (Called GetCollectionNames :: trace o) (result o).
Proof.
  intros Hnames Habs createOpts.
  unfold ensureCollectionWithValidator.
  rewrite (bind_call_ok _ _ _ _ _ _ Hnames).
  unfold includes. rewrite bool_decide_eq_false_2 by done. done.
Qed.

Lemma ensureCollection_present name validator options s s1 names :
  sh_getCollectionNames db s = (s1, Ok names) ->
  name ∈ names ->
  let command := collModCommand name validator in
  ensureCollectionWithValidator db name validator options s =
    let o :=
      (call (RunCommand command) (sh_runCommand db command) ;;;
       print ("✓ Updated validator for existing collection '" +:+ name +:+ "'"))
        s1 in
    mkOutcome (final o) (Called GetCollectionNames :: trace o) (result o).
Proof.
  intros Hnames Hin command.
  unfold ensureCollectionWithValidator.
  rewrite (bind_call_ok _ _ _ _ _ _ Hnames).
  unfold includes. rewrite bool_decide_eq_true_2 by done. done.
Qed.

(** One store call and at most one printed line follow the listing,
    whatever the store answers. *)
Lemma step_then_print_calls {A} (c : Call) (f : St -> St * Result A) line s :
  calls (trace ((call c f ;;; print line) s)) = [c].
Proof.
  unfold bind, call, print. destruct (f s) as [s2 [a|e]]; reflexivity.
Qed.

Lemma ensureCollection_absent_calls name validator options s s1 names :
  sh_getCollectionNames db s = (s1, Ok names) ->
  name ∉ names ->
  calls (trace (ensureCollectionWithValidator db name validator options s)) =
    [ GetCollectionNames;
      CreateCollection name
        (Object_assign (defaultCreateOptions validator) (default [] options)) ].
Proof.
  intros Hnames Habs.
  rewrite (ensureCollection_absent _ _ _ _ _ _ Hnames Habs).
  cbn [trace]. change (Called ?c :: ?l) with ([Called c] ++ l).
  by rewrite calls_app, step_then_print_calls.
Qed.

Lemma ensureCollection_present_calls name validator options s s1 names :
  sh_getCollectionNames db s = (s1, Ok names) ->
  name ∈ names ->
  calls (trace (ensureCollectionWithValidator db name validator options s)) =
    [ GetCollectionNames; RunCommand (collModCommand name validator) ].
Proof.
  intros Hnames Hin.
  rewrite (ensureCollection_present _ _ _ _ _ _ Hnames Hin).
  cbn [trace]. change (Called ?c :: ?l) with ([Called c] ++ l).
  by rewrite calls_app, step_then_print_calls.
Qed.


End SchemaReconciler.

Section SchemaReconcilerPolicy.
Context {St : Type} (db : Shell St).

(** C10. When the collection already exists, the run of
    [ensureCollectionWithValidator] does not depend on the caller's
    options: the command sent is [collModCommand] (the validator, level
    [moderate], action [error]) for every options value. When the
    collection is absent, every entry of the options overrides the
    default of the same name in the options of the create call. *)
Theorem update_branch_ignores_options name validator s s1 names :
  sh_getCollectionNames db s = (s1, Ok names) ->
  (name ∈ names ->
     forall options options',
       ensureCollectionWithValidator db name validator options s =
         ensureCollectionWithValidator db name validator options' s
       ∧ calls (trace (ensureCollectionWithValidator db name validator options s)) =
           [ GetCollectionNames; RunCommand (collModCommand name validator) ])
  ∧ (name ∉ names ->
     forall options : Obj,
       NoDup options.*1 ->
       exists createOpts,
         calls (trace (ensureCollectionWithValidator db name validator
                         (Some options) s)) =
           [ GetCollectionNames; CreateCollection name createOpts ]
         ∧ forall k,
             obj_lookup k createOpts =
               match obj_lookup k options with
               | Some v => Some v
               | None => obj_lookup k (defaultCreateOptions validator)
               end).
Proof.
  intros Hnames. split.
  - intros Hin options options'. split.
    + by rewrite !(ensureCollection_present db _ _ _ _ _ _ Hnames Hin).
    + by apply (ensureCollection_present_calls db _ _ _ _ _ _ Hnames).
  - intros Habs options Hnd.
    exists (Object_assign (defaultCreateOptions validator) options). split.
    + by apply (ensureCollection_absent_calls db _ _ (Some options) _ _ _ Hnames).
    + intros k. destruct (obj_lookup k options) as [v|] eqn:E.
      * by apply obj_lookup_assign_source.
      * by apply obj_lookup_assign_other.
Qed.


(** C7. A failure of the store in [ensureCollectionWithValidator], in
    the create call or in the modify call, reaches the caller as that
    [StoreError]: the step makes the failing call once, prints no success
    line, and leaves the environment as the failing call left it. The
    whole script then ends with the same error, nothing more called or
    printed, nothing of the earlier steps undone; and the launcher turns
    a non-zero status of the shell into its own exit code. *)
Theorem ensureCollection_failure_propagates
    name validator options s s1 names s2 e :
  sh_getCollectionNames db s = (s1, Ok names) ->
  (name ∉ names ->
     let createOpts :=
       Object_assign (defaultCreateOptions validator) (default [] options) in
     sh_createCollection db name createOpts s1 = (s2, Thrown e) ->
     ensureCollectionWithValidator db name validator options s =
       mkOutcome s2
         [ Called GetCollectionNames; Called (CreateCollection name createOpts) ]
         (Thrown e))
  ∧ (name ∈ names ->
     sh_runCommand db (collModCommand name validator) s1 = (s2, Thrown e) ->
     ensureCollectionWithValidator db name validator options s =
       mkOutcome s2
         [ Called GetCollectionNames;
           Called (RunCommand (collModCommand name validator)) ]
         (Thrown e))
  ∧ (forall s0 e0,
       result (ensureCollections db s0) = Thrown e0 ->
       init_mongo db s0 =
         mkOutcome (final (ensureCollections db s0))
                   (trace (ensureCollections db s0)) (Thrown e0))
  ∧ (forall s0 e0,
       result (ensureCollectionWithValidator db "users" usersSchema None s0)
         = Ok tt ->
       result (ensureCollectionWithValidator db "onboarding_steps"
                 onboardingStepsSchema None
                 (final (ensureCollectionWithValidator db "users" usersSchema
                           None s0)))
         = Thrown e0 ->
       let o1 := ensureCollectionWithValidator db "users" usersSchema None s0 in
       let o2 := ensureCollectionWithValidator db "onboarding_steps"
                   onboardingStepsSchema None (final o1) in
       init_mongo db s0 =
         mkOutcome (final o2) (trace o1 ++ trace o2) (Thrown e0))
  ∧ (forall url dbName script spawn n,
       InitDb.missing url = false -> InitDb.missing dbName = false ->
       n ≠ 0%Z ->
       (forall cmd args, spawn cmd args = InitDb.mkSpawnResult None (Some n)) ->
       InitDb.init_db url dbName script spawn = n).
Proof.
  intros Hnames. repeat split.
  - intros Habs createOpts Hfail.
    rewrite (ensureCollection_absent db _ _ _ _ _ _ Hnames Habs).
    fold createOpts. by rewrite (bind_call_thrown _ _ _ _ _ _ Hfail).
  - intros Hin Hfail.
    rewrite (ensureCollection_present db _ _ _ _ _ _ Hnames Hin).
    by rewrite (bind_call_thrown _ _ _ _ _ _ Hfail).
  - intros s0 e0 Hfail. unfold init_mongo.
    unfold bind at 1. cbn [result final trace].
    rewrite (bind_thrown _ _ _ _ Hfail). done.
  - intros s0 e0 Hok Hfail o1 o2. unfold init_mongo.
    unfold bind at 1. cbn [result final trace].
    assert (ensureCollections db s0
            = mkOutcome (final o2) (trace o1 ++ trace o2) (Thrown e0)) as E.
    { unfold ensureCollections. rewrite (bind_ok _ _ _ _ Hok).
      fold o1. fold o2. f_equal. exact Hfail. }
    rewrite (bind_thrown _ _ _ e0) by (by rewrite E). by rewrite E.
  - intros url dbName script spawn n Hu Hd Hn Hspawn.
    unfold InitDb.init_db. rewrite Hu, Hd, Hspawn. simpl.
    by rewrite bool_decide_eq_false_2.
Qed.

End SchemaReconcilerPolicy.

(** ** The index reconciler *)

Section IndexReconciler.
Context {St : Type} (db : Shell St).

Lemma ensureIndexes_listed name specs s s1 live :
  sh_getIndexes db name s = (s1, Ok live) ->
  ensureIndexes db name specs s =
    let o := forEach (ensureIndexes_callback db name (map idx_name live))
               specs s1 in
    mkOutcome (final o) (Called (GetIndexes name) :: trace o) (result o).
Proof.
  intros H. unfold ensureIndexes. by rewrite (bind_call_ok _ _ _ _ _ _ H).
Qed.

(** The three ways the callback can go. *)
Lemma callback_present name existing idx s :
  idx_name idx ∈ existing ->
  ensureIndexes_callback db name existing idx s =
    mkOutcome s
      [ Printed ("• Index '" +:+ idx_name idx
                 +:+ "' already exists on '" +:+ name +:+ "'") ]
      (Ok tt).
Proof.
  intros Hin. unfold ensureIndexes_callback, includes.
  by rewrite bool_decide_eq_true_2.
Qed.

Lemma callback_created name existing idx s s2 r :
  idx_name idx ∉ existing ->
  sh_createIndex db name (idx_key idx) idx s = (s2, Ok r) ->
  ensureIndexes_callback db name existing idx s =
    mkOutcome s2
      [ Called (createIndexCall name idx);
        Printed ("✓ Created index '" +:+ idx_name idx
                 +:+ "' on collection '" +:+ name +:+ "'") ]
      (Ok tt).
Proof.
  intros Habs Hcall. unfold ensureIndexes_callback, includes.
  rewrite bool_decide_eq_false_2 by done. cbn [negb].
  by rewrite (bind_call_ok _ _ _ _ _ _ Hcall).
Qed.

Lemma callback_thrown name existing idx s s2 e :
  idx_name idx ∉ existing ->
  sh_createIndex db name (idx_key idx) idx s = (s2, Thrown e) ->
  ensureIndexes_callback db name existing idx s =
    mkOutcome s2 [ Called (createIndexCall name idx) ] (Thrown e).
Proof.
  intros Habs Hcall. unfold ensureIndexes_callback, includes.
  rewrite bool_decide_eq_false_2 by done. cbn [negb].
  by rewrite (bind_call_thrown _ _ _ _ _ _ Hcall).
Qed.



End IndexReconciler.

(** ** The seed loader *)

Section SeedLoader.
Context {St : Type} (db : Shell St).

Lemma seedIfEmpty_nonempty s s1 n :
  sh_estimatedDocumentCount db "onboarding_steps" s = (s1, Ok n) ->
  n ≠ 0%N ->
  seedIfEmpty db s =
    mkOutcome s1
      [ Called (EstimatedDocumentCount "onboarding_steps");
        Printed ("• onboarding_steps already contains " +:+ pretty n
                 +:+ " documents") ]
      (Ok tt).
Proof.
  intros Hcount Hn. unfold seedIfEmpty.
  rewrite (bind_call_ok _ _ _ _ _ _ Hcount).
  by rewrite bool_decide_eq_false_2.
Qed.

Lemma seedIfEmpty_empty s s1 :
  sh_estimatedDocumentCount db "onboarding_steps" s = (s1, Ok 0%N) ->
  seedIfEmpty db s =
    let now := (sh_newDate db s1).2 in
    let o :=
      (call (InsertMany "onboarding_steps" (defaultSteps now))
            (sh_insertMany db "onboarding_steps" (defaultSteps now)) ;;;
       print "✓ Seeded onboarding_steps with default steps")
        (sh_newDate db s1).1 in
    mkOutcome (final o)
      (Called (EstimatedDocumentCount "onboarding_steps") :: trace o)
      (result o).
Proof.
  intros Hcount. unfold seedIfEmpty.
  rewrite (bind_call_ok _ _ _ _ _ _ Hcount).
  rewrite bool_decide_eq_true_2 by done.
  unfold bind at 1. cbn [result final trace app]. done.
Qed.

Lemma seedIfEmpty_empty_calls s s1 :
  sh_estimatedDocumentCount db "onboarding_steps" s = (s1, Ok 0%N) ->
  calls (trace (seedIfEmpty db s)) =
    [ EstimatedDocumentCount "onboarding_steps";
      InsertMany "onboarding_steps" (defaultSteps (sh_newDate db s1).2) ].
Proof.
  intros Hcount. rewrite (seedIfEmpty_empty _ _ Hcount). cbn [trace].
  change (Called ?c :: ?l) with ([Called c] ++ l).
  by rewrite calls_app, step_then_print_calls.
Qed.

Lemma seedIfEmpty_empty_inserted s s1 :
  sh_estimatedDocumentCount db "onboarding_steps" s = (s1, Ok 0%N) ->
  inserted (trace (seedIfEmpty db s)) = defaultSteps (sh_newDate db s1).2.
Proof.
  intros Hcount. unfold inserted. rewrite (seedIfEmpty_empty_calls _ _ Hcount).
  cbn [omap concat]. apply app_nil_r.
Qed.


(** C8. The records handed to the bulk insert when the collection is
    empty are exactly four: [account] (order 0, required), [profile]
    (order 1, required), [preferences] (order 2, not required) and
    [summary] (order 3, required); each has a title and a description. *)
Theorem seed_records_content s s1 :
  sh_estimatedDocumentCount db "onboarding_steps" s = (s1, Ok 0%N) ->
  let docs := inserted (trace (seedIfEmpty db s)) in
  map step_summary docs =
    [ (VStr "account", VNum 0, VBool true);
      (VStr "profile", VNum 1, VBool true);
      (VStr "preferences", VNum 2, VBool false);
      (VStr "summary", VNum 3, VBool true) ]
  ∧ Forall (fun doc => exists title description,
                obj_lookup "title" doc = Some (VStr title)
                ∧ obj_lookup "description" doc = Some (VStr description))
           docs.
Proof.
  intros Hcount docs. subst docs.
  rewrite (seedIfEmpty_empty_inserted _ _ Hcount). split; [done|].
  repeat constructor; eexists _, _; split; reflexivity.
Qed.

(** C9. When the seed insert happens, the clock is read once, after
    the count and before the insert, and every one of the four records
    carries that reading in [createdAt] and in [updatedAt]. *)
Theorem seed_records_share_timestamp s s1 :
  sh_estimatedDocumentCount db "onboarding_steps" s = (s1, Ok 0%N) ->
  let o := seedIfEmpty db s in
  let now := (sh_newDate db s1).2 in
  length (inserted (trace o)) = 4
  ∧ Forall (fun doc => obj_get "createdAt" doc = VDate now
                       ∧ obj_get "updatedAt" doc = VDate now)
           (inserted (trace o))
  ∧ final o =
      (sh_insertMany db "onboarding_steps" (defaultSteps now)
         (sh_newDate db s1).1).1.
Proof.
  intros Hcount o now. subst o.
  rewrite (seedIfEmpty_empty_inserted _ _ Hcount). split; [done|]. split.
  - repeat constructor.
  - rewrite (seedIfEmpty_empty _ _ Hcount). cbv zeta. cbn [final].
    unfold bind, call, print. fold now.
    by destruct (sh_insertMany db "onboarding_steps" (defaultSteps now)
                   (sh_newDate db s1).1) as [s2 [[]|e]].
Qed.

End SeedLoader.

(** ** The script on the store model *)

Section FreshDatabase.
Import Mongo.

(** C5, as the code has it. On a database with no collections, with a
    store that builds every index and accepts every document, the script
    creates the two collections with their validators, creates eight
    indexes (six on [users], two on [onboarding_steps]) with exactly the
    eight names of the scenario, and inserts the four seed records into
    [onboarding_steps]. *)
Theorem fresh_database_scenario name now :
  let o := init_mongo permissive (fresh name now) in
  result o = Ok tt
  ∧ fresh_scenario 8 6 2 (trace o)
  ∧ omap (fun c => match c with
                   | CreateCollection coll options => Some (coll, options)
                   | _ => None
                   end) (calls (trace o)) =
      [ ("users", defaultCreateOptions usersSchema);
        ("onboarding_steps", defaultCreateOptions onboardingStepsSchema) ]
  ∧ db_collections (final o) !! "users" =
      Some (mkCollection (defaultCreateOptions usersSchema)
              (id_index :: usersIndexes) [])
  ∧ db_collections (final o) !! "onboarding_steps" =
      Some (mkCollection (defaultCreateOptions onboardingStepsSchema)
              (id_index :: onboardingStepsIndexes) (defaultSteps now)).
Proof.
  cbv zeta. unfold fresh_scenario. repeat split; vm_compute; reflexivity.
Qed.

End FreshDatabase.

Section ObjectSettled.

Lemma obj_set_same k v o : obj_lookup k o = Some v -> obj_set k v o = o.
Proof.
  induction o as [|[k0 v0] o IH]; simpl; [done|].
  destruct (decide (k = k0)) as [->|Hne].
  - by intros [= ->].
  - intros H. by rewrite IH.
Qed.

Lemma Object_assign_settled o source :
  (forall k v, (k, v) ∈ source -> obj_lookup k o = Some v) ->
  Object_assign o source = o.
Proof.
  unfold Object_assign. induction source as [|[k v] src IH]; intros H; [done|].
  simpl. rewrite obj_set_same by (apply H; left). apply IH.
  intros k' v' Hin. apply H. by right.
Qed.

Lemma obj_lookup_elem k v (o : Obj) :
  NoDup o.*1 -> (k, v) ∈ o -> obj_lookup k o = Some v.
Proof.
  induction o as [|[k0 v0] o IH]; simpl; intros Hnd Hin.
  - by apply elem_of_nil in Hin.
  - apply NoDup_cons in Hnd as [Hnotin Hnd].
    apply elem_of_cons in Hin as [[= -> ->]|Hin].
    + by rewrite decide_True.
    + rewrite decide_False; [by apply IH|].
      intros ->. apply Hnotin. apply list_elem_of_fmap. by exists (k0, v).
Qed.

(** Assigning the same source twice is assigning it once. *)
Lemma Object_assign_idem o source :
  NoDup source.*1 ->
  Object_assign (Object_assign o source) source = Object_assign o source.
Proof.
  intros Hnd. apply Object_assign_settled. intros k v Hin.
  apply obj_lookup_assign_source; [done|]. by apply obj_lookup_elem.
Qed.

Lemma collMod_options_command name validator :
  Mongo.collMod_options (collModCommand name validator)
  = defaultCreateOptions validator.
Proof. reflexivity. Qed.

Lemma defaultCreateOptions_NoDup validator :
  NoDup (defaultCreateOptions validator).*1.
Proof. compute_done. Qed.

End ObjectSettled.

(** ** Re-running the script on the store model *)

Section Rerun.
Import Mongo Reconciled.
Context (can_build : Collection -> IndexSpec -> bool).
Context (accepts : Collection -> Obj -> bool).
Local Abbreviation sh := (shell can_build accepts).

Lemma elem_of_collection_names (cs : gmap string Collection) name :
  name ∈ (map_to_list cs).*1 <-> is_Some (cs !! name).
Proof.
  rewrite list_elem_of_fmap. split.
  - intros ([k c] & -> & Hin). apply elem_of_map_to_list in Hin. by exists c.
  - intros [c Hc]. exists (name, c). split; [done|].
    by apply elem_of_map_to_list.
Qed.

(** *** Sequencing parts that leave the collections alone *)

Lemma creates_nothing_app t1 t2 :
  creates_nothing t1 -> creates_nothing t2 -> creates_nothing (t1 ++ t2).
Proof.
  unfold creates_nothing, createdCollections, createdIndexes, inserted.
  intros (H1 & H2 & H3) (H1' & H2' & H3').
  rewrite calls_app, !omap_app, concat_app. by rewrite H1, H2, H3, H1', H2', H3'.
Qed.

Lemma quiet_fixed m cs : quiet m cs -> fixed m cs.
Proof. intros H d Hd. by apply H. Qed.

Lemma fixed_seq_quiet m k cs :
  quiet m cs -> fixed k cs -> fixed (m ;;; k) cs.
Proof.
  intros Hm Hk d Hd. destruct (Hm d Hd) as (Hc & Hr & _).
  rewrite (bind_ok _ _ _ _ Hr). cbn [final]. by apply Hk.
Qed.

Lemma fixed_seq_thrown m (k : M Db unit) cs :
  fixed_thrown m cs -> fixed (m ;;; k) cs.
Proof.
  intros Hm d Hd. destruct (Hm d Hd) as [Hc [e Hr]].
  by rewrite (bind_thrown _ _ _ _ Hr).
Qed.

Lemma quiet_seq m k cs :
  quiet m cs -> quiet k cs -> quiet (m ;;; k) cs.
Proof.
  intros Hm Hk d Hd. destruct (Hm d Hd) as (Hc & Hr & Ht).
  rewrite (bind_ok _ _ _ _ Hr). cbn [final result trace].
  destruct (Hk _ Hc) as (Hc' & Hr' & Ht').
  split; [done|]. split; [done|]. by apply creates_nothing_app.
Qed.

Lemma fixed_thrown_seq_quiet m k cs :
  quiet m cs -> fixed_thrown k cs -> fixed_thrown (m ;;; k) cs.
Proof.
  intros Hm Hk d Hd. destruct (Hm d Hd) as (Hc & Hr & _).
  rewrite (bind_ok _ _ _ _ Hr). cbn [final result]. by apply Hk.
Qed.

Lemma fixed_thrown_seq m (k : M Db unit) cs :
  fixed_thrown m cs -> fixed_thrown (m ;;; k) cs.
Proof.
  intros Hm d Hd. destruct (Hm d Hd) as [Hc [e Hr]].
  rewrite (bind_thrown _ _ _ _ Hr). cbn [final result]. eauto.
Qed.

Lemma then_print (m : M Db unit) line d :
  final ((m ;;; print line) d) = final (m d)
  ∧ result ((m ;;; print line) d) = result (m d).
Proof. unfold bind, print. by destruct (result (m d)) as [[]|e]. Qed.

Lemma fixed_then_print m line cs : fixed m cs -> fixed (m ;;; print line) cs.
Proof.
  intros Hm d Hd. destruct (then_print m line d) as [-> _]. by apply Hm.
Qed.

Lemma quiet_print line cs : quiet (print line) cs.
Proof. by intros d Hd. Qed.

(** *** What grows keeps what was reconciled *)

Lemma grows_refl cs : grows cs cs.
Proof. intros name c Hc. by exists c. Qed.

Lemma grows_trans cs1 cs2 cs3 : grows cs1 cs2 -> grows cs2 cs3 -> grows cs1 cs3.
Proof.
  intros H12 H23 name c Hc.
  destruct (H12 _ _ Hc) as (c2 & Hc2 & Ho2 & Hi2).
  destruct (H23 _ _ Hc2) as (c3 & Hc3 & Ho3 & Hi3).
  exists c3. split; [done|]. split; [congruence|]. by etrans.
Qed.

Lemma settled_grows name validator cs cs' :
  grows cs cs' -> settled name validator cs -> settled name validator cs'.
Proof.
  intros Hg (c & Hc & Ho). destruct (Hg _ _ Hc) as (c' & Hc' & Ho' & _).
  exists c'. split; [done|]. by rewrite Ho'.
Qed.

Lemma indexed_grows name specs cs cs' :
  grows cs cs' -> indexed name specs cs -> indexed name specs cs'.
Proof.
  intros Hg (c & Hc & Hi). destruct (Hg _ _ Hc) as (c' & Hc' & _ & Hsub).
  exists c'. split; [done|]. intros idx Hidx. apply Hsub. by apply Hi.
Qed.

(** *** The schema reconciler on the model *)

Lemma ensureCollection_model name validator d :
  let o := ensureCollectionWithValidator sh name validator None d in
  result o = Ok tt
  ∧ db_collections (final o) =
      <[name := ensured name validator (db_collections d)]> (db_collections d).
Proof.
  cbv zeta. unfold ensured.
  assert (sh_getCollectionNames sh d = (d, Ok (map_to_list (db_collections d)).*1))
    as Hnames by done.
  destruct (db_collections d !! name) as [c|] eqn:Hc.
  - rewrite (ensureCollection_present sh _ _ _ _ _ _ Hnames)
      by (apply elem_of_collection_names; eauto).
    assert (sh_runCommand sh (collModCommand name validator) d
            = (with_collections d
                 (<[name := mkCollection
                      (Object_assign (coll_options c)
                         (defaultCreateOptions validator))
                      (coll_indexes c) (coll_docs c)]> (db_collections d)),
               Ok (VObj [("ok", VNum 1)]))) as Hrun.
    { cbn [sh_runCommand shell]. unfold runCommand.
      change (obj_lookup "collMod" (collModCommand name validator))
        with (Some (VStr name)).
      cbv iota beta. by rewrite Hc, collMod_options_command. }
    cbv zeta. by rewrite (bind_call_ok _ _ _ _ _ _ Hrun).
  - rewrite (ensureCollection_absent sh _ _ _ _ _ _ Hnames)
      by (rewrite elem_of_collection_names, Hc; by intros [? ?]).
    assert (sh_createCollection sh name (defaultCreateOptions validator) d
            = (with_collections d
                 (<[name := newCollection (defaultCreateOptions validator)]>
                    (db_collections d)), Ok tt)) as Hrun.
    { cbn [sh_createCollection shell]. unfold createCollection. by rewrite Hc. }
    cbv zeta. change (Object_assign (defaultCreateOptions validator) (default [] None))
      with (defaultCreateOptions validator).
    by rewrite (bind_call_ok _ _ _ _ _ _ Hrun).
Qed.

Lemma ensured_settled name validator cs :
  settled name validator (<[name := ensured name validator cs]> cs).
Proof.
  exists (ensured name validator cs). split; [apply lookup_insert_eq|].
  rewrite collMod_options_command. unfold ensured.
  destruct (cs !! name) as [c|]; cbn [coll_options newCollection].
  - apply Object_assign_idem, defaultCreateOptions_NoDup.
  - reflexivity.
Qed.

Lemma settled_quiet name validator cs :
  settled name validator cs ->
  quiet (ensureCollectionWithValidator sh name validator None) cs.
Proof.
  intros (c & Hc & Ho) d Hd.
  destruct (ensureCollection_model name validator d) as [Hr Hf].
  split; [|split; [done|]].
  - rewrite Hf, Hd. apply insert_id.
    unfold ensured. rewrite Hc. rewrite collMod_options_command in Ho.
    rewrite Ho. by destruct c.
  - unfold creates_nothing, createdCollections, createdIndexes, inserted.
    rewrite (ensureCollection_present_calls sh name validator None d d
               (map_to_list (db_collections d)).*1); [done|done|].
    apply elem_of_collection_names. rewrite Hd. eauto.
Qed.

Lemma ensureCollection_other name validator d name' :
  name' ≠ name ->
  db_collections (final (ensureCollectionWithValidator sh name validator None d))
    !! name' = db_collections d !! name'.
Proof.
  intros Hne. destruct (ensureCollection_model name validator d) as [_ ->].
  by rewrite lookup_insert_ne.
Qed.

(** *** The index reconciler on the model *)

Lemma add_index_names c idx :
  idx_name idx ∈ map idx_name (coll_indexes (add_index c idx))
  ∧ map idx_name (coll_indexes c) ⊆ map idx_name (coll_indexes (add_index c idx)).
Proof.
  unfold add_index, includes. cbn [coll_indexes]. case_bool_decide as Hin.
  - done.
  - rewrite map_app. split.
    + apply elem_of_app. right. simpl. left.
    + intros x Hx. apply elem_of_app. by left.
Qed.

Lemma add_index_names_other c idx n :
  n ≠ idx_name idx ->
  n ∈ map idx_name (coll_indexes (add_index c idx))
  <-> n ∈ map idx_name (coll_indexes c).
Proof.
  intros Hne. unfold add_index, includes. cbn [coll_indexes].
  case_bool_decide as Hin; [done|].
  rewrite map_app, elem_of_app. simpl. rewrite list_elem_of_singleton.
  tauto.
Qed.

Lemma createIndex_model name idx d c :
  db_collections d !! name = Some c ->
  sh_createIndex sh name (idx_key idx) idx d =
    if can_build c idx
    then (with_collections d (<[name := add_index c idx]> (db_collections d)),
          Ok (idx_name idx))
    else (d, Thrown (MongoServerError "CannotCreateIndex")).
Proof.
  intros Hc. cbn [sh_createIndex shell]. unfold createIndex, target.
  rewrite Hc. cbn [default]. by destruct idx.
Qed.

(** One round of the loop on a collection [c]: the name is known and
    nothing happens, or the store refuses the index and nothing changes,
    or the index is added. *)
Lemma callback_model name existing idx d c :
  db_collections d !! name = Some c ->
  let o := ensureIndexes_callback sh name existing idx d in
  (idx_name idx ∈ existing ∧ final o = d ∧ result o = Ok tt)
  ∨ ((idx_name idx ∉ existing) ∧ can_build c idx = false ∧ final o = d
     ∧ result o = Thrown (MongoServerError "CannotCreateIndex"))
  ∨ ((idx_name idx ∉ existing) ∧ can_build c idx = true ∧ result o = Ok tt
     ∧ db_collections (final o) = <[name := add_index c idx]> (db_collections d)).
Proof.
  intros Hc o. subst o.
  destruct (decide (idx_name idx ∈ existing)) as [Hin|Habs].
  - left. by rewrite (callback_present sh _ _ _ d Hin).
  - right. pose proof (createIndex_model name idx d c Hc) as Hcall.
    destruct (can_build c idx) eqn:Hb.
    + right. by rewrite (callback_created sh _ _ _ _ _ _ Habs Hcall).
    + left. by rewrite (callback_thrown sh _ _ _ _ _ _ Habs Hcall).
Qed.

(** The loop keeps the collection, its options and its documents, adds
    index names only, and leaves the other collections alone. *)
Lemma loop_grows name existing specs :
  forall d c,
    db_collections d !! name = Some c ->
    let o := forEach (ensureIndexes_callback sh name existing) specs d in
    exists c',
      db_collections (final o) !! name = Some c'
      ∧ coll_options c' = coll_options c
      ∧ coll_docs c' = coll_docs c
      ∧ map idx_name (coll_indexes c) ⊆ map idx_name (coll_indexes c')
      ∧ forall name', name' ≠ name ->
          db_collections (final o) !! name' = db_collections d !! name'.
Proof.
  induction specs as [|idx specs IH]; intros d c Hc o; subst o.
  - exists c. by cbn.
  - cbn [forEach].
    destruct (callback_model name existing idx d c Hc)
      as [(_ & Hf & Hr)|[(_ & _ & Hf & Hr)|(_ & _ & Hr & Hf)]].
    + rewrite (bind_ok _ _ _ _ Hr). cbn [final]. rewrite Hf. by apply IH.
    + rewrite (bind_thrown _ _ _ _ Hr). cbn [final]. rewrite Hf.
      exists c. by cbn.
    + rewrite (bind_ok _ _ _ _ Hr). cbn [final].
      assert (db_collections (final (ensureIndexes_callback sh name existing idx d))
                !! name = Some (add_index c idx)) as Hc1
        by (rewrite Hf; apply lookup_insert_eq).
      destruct (IH _ _ Hc1) as (c' & Hc' & Ho & Hd & Hi & Hother).
      exists c'. split; [done|]. split; [done|]. split; [done|]. split.
      * etrans; [|exact Hi]. apply (proj2 (add_index_names c idx)).
      * intros name' Hne. rewrite (Hother _ Hne), Hf. by rewrite lookup_insert_ne.
Qed.

(** A loop that ends well leaves every name of the list on the
    collection. *)
Lemma loop_ok_indexed name existing specs :
  forall d c,
    db_collections d !! name = Some c ->
    (forall idx, idx ∈ specs -> idx_name idx ∈ existing ->
                 idx_name idx ∈ map idx_name (coll_indexes c)) ->
    let o := forEach (ensureIndexes_callback sh name existing) specs d in
    result o = Ok tt ->
    indexed name specs (db_collections (final o)).
Proof.
  induction specs as [|idx specs IH]; intros d c Hc Hex o Hok; subst o.
  - exists c. split; [done|]. intros idx Hin. by apply elem_of_nil in Hin.
  - cbn [forEach] in *.
    destruct (callback_model name existing idx d c Hc)
      as [(Hin & Hf & Hr)|[(_ & _ & Hf & Hr)|(_ & _ & Hr & Hf)]].
    + rewrite (bind_ok _ _ _ _ Hr) in Hok |- *. cbn [final result] in *.
      rewrite Hf in Hok |- *.
      destruct (IH d c Hc) as (c' & Hc' & Hall); [|done|].
      { intros idx' Hidx'. apply Hex. by right. }
      destruct (loop_grows name existing specs d c Hc)
        as (c'' & Hc'' & _ & _ & Hsub & _).
      exists c'. split; [done|]. intros idx' [->|Hidx']%elem_of_cons.
      * assert (c'' = c') as -> by congruence. apply Hsub, Hex; [left|done].
      * by apply Hall.
    + rewrite (bind_thrown _ _ _ _ Hr) in Hok. by cbn in Hok.
    + rewrite (bind_ok _ _ _ _ Hr) in Hok |- *. cbn [final result] in *.
      set (d1 := final (ensureIndexes_callback sh name existing idx d)) in *.
      assert (db_collections d1 !! name = Some (add_index c idx)) as Hc1
        by (rewrite Hf; apply lookup_insert_eq).
      destruct (IH d1 _ Hc1) as (c' & Hc' & Hall); [|done|].
      { intros idx' Hidx' Hin'.
        apply (proj2 (add_index_names c idx)), Hex; [by right|done]. }
      destruct (loop_grows name existing specs d1 _ Hc1)
        as (c'' & Hc'' & _ & _ & Hsub & _).
      exists c'. split; [done|]. intros idx' [->|Hidx']%elem_of_cons.
      * assert (c'' = c') as -> by congruence.
        apply Hsub, (proj1 (add_index_names c idx)).
      * by apply Hall.
Qed.

(** A loop over names that are all known changes nothing and calls
    nothing. *)
Lemma loop_all_present name existing specs d :
  (forall idx, idx ∈ specs -> idx_name idx ∈ existing) ->
  let o := forEach (ensureIndexes_callback sh name existing) specs d in
  final o = d ∧ result o = Ok tt ∧ calls (trace o) = [].
Proof.
  induction specs as [|idx specs IH]; intros Hall o; subst o; [done|].
  cbn [forEach].
  rewrite (bind_outcome_ok _ _ _ _ _ _
             (callback_present sh name existing idx d (Hall idx ltac:(left)))).
  cbn [final result trace]. rewrite calls_app. cbn [calls omap app].
  apply IH. intros idx' Hin. apply Hall. by right.
Qed.

(** Running the loop again on what it left: the same collections and
    the same result. [existing] and [existing'] are the live names the
    two runs read, each right on the names of the list. *)
Lemma loop_rerun name specs :
  NoDup (map idx_name specs) ->
  forall existing d c,
    db_collections d !! name = Some c ->
    (forall idx, idx ∈ specs ->
       idx_name idx ∈ existing <-> idx_name idx ∈ map idx_name (coll_indexes c)) ->
    let o := forEach (ensureIndexes_callback sh name existing) specs d in
    forall c' existing' d',
      db_collections (final o) !! name = Some c' ->
      db_collections d' = db_collections (final o) ->
      (forall idx, idx ∈ specs ->
         idx_name idx ∈ existing'
         <-> idx_name idx ∈ map idx_name (coll_indexes c')) ->
      let o' := forEach (ensureIndexes_callback sh name existing') specs d' in
      db_collections (final o') = db_collections (final o)
      ∧ result o' = result o.
Proof.
  induction specs as [|idx specs IH];
    intros Hnd existing d c Hc Hex o c' existing' d' Hc' Hd' Hex' o';
    subst o o'.
  - done.
  - apply NoDup_cons in Hnd as [Hfresh Hnd]. cbn [forEach] in *.
    destruct (callback_model name existing idx d c Hc)
      as [(Hin & Hf & Hr)|[(Habs & Hb & Hf & Hr)|(Habs & Hb & Hr & Hf)]].
    + (* known to the first run: known to the second *)
      rewrite (bind_ok _ _ _ _ Hr) in Hc', Hd' |- *.
      cbn [final result] in *. rewrite Hf in Hc', Hd' |- *.
      destruct (loop_grows name existing specs d c Hc)
        as (c'' & Hc'' & _ & _ & Hsub & _).
      assert (c'' = c') as -> by congruence.
      assert (idx_name idx ∈ existing') as Hin'.
      { apply Hex'; [left|]. apply Hsub, Hex; [left|done]. }
      rewrite (bind_outcome_ok _ _ _ _ _ _
                 (callback_present sh name existing' idx d' Hin')).
      cbn [final result].
      apply (IH Hnd existing d c Hc) with (c' := c'); [|done|done|].
      * intros idx' Hidx'. apply Hex. by right.
      * intros idx' Hidx'. apply Hex'. by right.
    + (* refused in the first run: refused again *)
      rewrite (bind_thrown _ _ _ _ Hr) in Hc', Hd' |- *.
      cbn [final result] in *. rewrite Hf in Hc', Hd'.
      assert (c' = c) as -> by congruence.
      assert (db_collections d' !! name = Some c) as Hcd' by (by rewrite Hd').
      destruct (callback_model name existing' idx d' c Hcd')
        as [(Hin' & _)|[(_ & _ & Hf' & Hr')|(_ & Hb' & _)]].
      * exfalso. apply Habs, Hex; [left|]. apply Hex'; [left|done].
      * rewrite (bind_thrown _ _ _ _ Hr'). cbn [final result].
        by rewrite Hf', Hf.
      * congruence.
    + (* created in the first run: known to the second *)
      rewrite (bind_ok _ _ _ _ Hr) in Hc', Hd' |- *.
      cbn [final result] in *.
      set (d1 := final (ensureIndexes_callback sh name existing idx d)) in *.
      assert (db_collections d1 !! name = Some (add_index c idx)) as Hc1
        by (rewrite Hf; apply lookup_insert_eq).
      destruct (loop_grows name existing specs d1 _ Hc1)
        as (c'' & Hc'' & _ & _ & Hsub & _).
      assert (c'' = c') as -> by congruence.
      assert (idx_name idx ∈ existing') as Hin'.
      { apply Hex'; [left|]. apply Hsub, (proj1 (add_index_names c idx)). }
      rewrite (bind_outcome_ok _ _ _ _ _ _
                 (callback_present sh name existing' idx d' Hin')).
      cbn [final result].
      apply (IH Hnd existing d1 _ Hc1) with (c' := c'); [|done|done|].
      * intros idx' Hidx'. rewrite add_index_names_other.
        -- apply Hex. by right.
        -- intros Heq. apply Hfresh. rewrite <- Heq.
           apply list_elem_of_fmap. by exists idx'.
      * intros idx' Hidx'. apply Hex'. by right.
Qed.

Lemma getIndexes_model name d :
  sh_getIndexes sh name d =
    match db_collections d !! name with
    | Some c => (d, Ok (coll_indexes c))
    | None => (d, Thrown (MongoServerError "NamespaceNotFound"))
    end.
Proof. reflexivity. Qed.

Lemma ensureIndexes_missing name specs d :
  db_collections d !! name = None ->
  ensureIndexes sh name specs d =
    mkOutcome d [Called (GetIndexes name)]
      (Thrown (MongoServerError "NamespaceNotFound")).
Proof.
  intros Hc. unfold ensureIndexes.
  rewrite (bind_call_thrown _ _ _ _ d (MongoServerError "NamespaceNotFound"));
    [done|]. by rewrite getIndexes_model, Hc.
Qed.

Lemma ensureIndexes_live name specs d c :
  db_collections d !! name = Some c ->
  ensureIndexes sh name specs d =
    let o := forEach (ensureIndexes_callback sh name
                        (map idx_name (coll_indexes c))) specs d in
    mkOutcome (final o) (Called (GetIndexes name) :: trace o) (result o).
Proof.
  intros Hc. apply ensureIndexes_listed. by rewrite getIndexes_model, Hc.
Qed.

Lemma ensureIndexes_grows name specs d :
  grows (db_collections d)
        (db_collections (final (ensureIndexes sh name specs d))).
Proof.
  destruct (db_collections d !! name) as [c|] eqn:Hc.
  - rewrite (ensureIndexes_live _ _ _ _ Hc). cbv zeta. cbn [final].
    destruct (loop_grows name (map idx_name (coll_indexes c)) specs d c Hc)
      as (c' & Hc' & Ho & _ & Hsub & Hother).
    intros name' c0 Hc0. destruct (decide (name' = name)) as [->|Hne].
    + exists c'. assert (c0 = c) as -> by congruence. done.
    + exists c0. by rewrite (Hother _ Hne).
  - rewrite (ensureIndexes_missing _ _ _ Hc). apply grows_refl.
Qed.

Lemma ensureIndexes_ok_indexed name specs d :
  result (ensureIndexes sh name specs d) = Ok tt ->
  indexed name specs (db_collections (final (ensureIndexes sh name specs d))).
Proof.
  destruct (db_collections d !! name) as [c|] eqn:Hc.
  - rewrite (ensureIndexes_live _ _ _ _ Hc). cbv zeta. cbn [final result].
    by apply (loop_ok_indexed name _ specs d c Hc).
  - by rewrite (ensureIndexes_missing _ _ _ Hc).
Qed.

Lemma indexed_quiet name specs cs :
  indexed name specs cs -> quiet (ensureIndexes sh name specs) cs.
Proof.
  intros (c & Hc & Hall) d Hd. rewrite <- Hd in Hc.
  rewrite (ensureIndexes_live _ _ _ _ Hc). cbv zeta. cbn [final result trace].
  destruct (loop_all_present name (map idx_name (coll_indexes c)) specs d Hall)
    as (Hf & Hr & Hcalls).
  rewrite Hf. split; [done|]. split; [done|].
  unfold creates_nothing, createdCollections, createdIndexes, inserted.
  change (Called ?c :: ?l) with ([Called c] ++ l).
  by rewrite calls_app, Hcalls.
Qed.

(** A second [ensureIndexes] over what a failed one left fails again and
    changes nothing. *)
Lemma ensureIndexes_thrown_fixed name specs d e :
  NoDup (map idx_name specs) ->
  result (ensureIndexes sh name specs d) = Thrown e ->
  fixed_thrown (ensureIndexes sh name specs)
    (db_collections (final (ensureIndexes sh name specs d))).
Proof.
  intros Hnd Hthrown d' Hd'.
  destruct (db_collections d !! name) as [c|] eqn:Hc.
  - rewrite (ensureIndexes_live _ _ _ _ Hc) in Hthrown, Hd' |- *.
    cbv zeta in *. cbn [final result] in *.
    destruct (loop_grows name (map idx_name (coll_indexes c)) specs d c Hc)
      as (c' & Hc' & _).
    assert (db_collections d' !! name = Some c') as Hcd' by (by rewrite Hd').
    rewrite (ensureIndexes_live _ _ _ _ Hcd'). cbv zeta. cbn [final result].
    destruct (loop_rerun name specs Hnd (map idx_name (coll_indexes c)) d c Hc
                ltac:(done) c' (map idx_name (coll_indexes c')) d' Hc' Hd'
                ltac:(done)) as [Hsame Hres].
    split; [done|]. exists e. by rewrite Hres.
  - rewrite (ensureIndexes_missing _ _ _ Hc) in Hd' |- *. cbn [final] in *.
    assert (db_collections d' !! name = None) as Hcd' by (by rewrite Hd').
    rewrite (ensureIndexes_missing _ _ _ Hcd'). cbn. eauto.
Qed.

(** *** The seed loader on the model *)

Lemma insert_ordered_frame docs :
  forall c,
    let r := insert_ordered accepts c docs in
    coll_options r.1 = coll_options c
    ∧ coll_indexes r.1 = coll_indexes c
    ∧ exists more, coll_docs r.1 = coll_docs c ++ more.
Proof.
  induction docs as [|doc docs IH]; intros c r; subst r; cbn [insert_ordered].
  - split; [done|]. split; [done|]. exists []. by rewrite app_nil_r.
  - destruct (accepts c doc).
    + destruct (IH (mkCollection (coll_options c) (coll_indexes c)
                      (coll_docs c ++ [doc]))) as (Ho & Hi & more & Hd).
      split; [done|]. split; [done|]. exists (doc :: more).
      rewrite Hd. cbn [coll_docs]. by rewrite <- app_assoc.
    + split; [done|]. split; [done|]. exists []. by rewrite app_nil_r.
Qed.

Lemma insert_ordered_first c doc docs :
  accepts c doc = true ->
  coll_docs (insert_ordered accepts c (doc :: docs)).1 ≠ [].
Proof.
  intros Hacc. cbn [insert_ordered]. rewrite Hacc.
  destruct (insert_ordered_frame docs
              (mkCollection (coll_options c) (coll_indexes c)
                 (coll_docs c ++ [doc]))) as (_ & _ & more & ->).
  cbn [coll_docs]. intros H. apply app_eq_nil in H as [H _].
  by apply app_eq_nil in H as [_ H].
Qed.

Lemma count_model d :
  sh_estimatedDocumentCount sh "onboarding_steps" d =
    (d, Ok (N.of_nat (length (coll_docs (target d "onboarding_steps"))))).
Proof. reflexivity. Qed.

Lemma step_then_print_final {A} (c : Call) (f : Db -> Db * Result A) line d :
  final ((call c f ;;; print line) d) = (f d).1
  ∧ result ((call c f ;;; print line) d) =
      match (f d).2 with Ok _ => Ok tt | Thrown e => Thrown e end.
Proof. unfold bind, call, print. by destruct (f d) as [d2 [a|e]]. Qed.

(** With a document in [onboarding_steps] the seed step reads the count
    and prints it. *)
Lemma seed_nonempty_model d :
  coll_docs (target d "onboarding_steps") ≠ [] ->
  seedIfEmpty sh d =
    mkOutcome d
      [ Called (EstimatedDocumentCount "onboarding_steps");
        Printed ("• onboarding_steps already contains "
                 +:+ pretty (N.of_nat (length (coll_docs
                                (target d "onboarding_steps"))))
                 +:+ " documents") ]
      (Ok tt).
Proof.
  intros Hdocs. apply (seedIfEmpty_nonempty sh _ _ _ (count_model d)).
  destruct (coll_docs (target d "onboarding_steps")); [done|]. by cbn.
Qed.

(** Without one, the default steps go to the store with the clock
    reading, one by one. *)
Lemma seed_empty_model d :
  coll_docs (target d "onboarding_steps") = [] ->
  let r := insert_ordered accepts (target d "onboarding_steps")
             (defaultSteps (db_clock d)) in
  db_collections (final (seedIfEmpty sh d)) =
    <["onboarding_steps" := r.1]> (db_collections d)
  ∧ result (seedIfEmpty sh d) =
      match r.2 with Ok _ => Ok tt | Thrown e => Thrown e end.
Proof.
  intros Hdocs r.
  assert (sh_estimatedDocumentCount sh "onboarding_steps" d = (d, Ok 0%N))
    as Hcount by (by rewrite count_model, Hdocs).
  rewrite (seedIfEmpty_empty sh _ _ Hcount). cbv zeta. cbn [final result].
  destruct (step_then_print_final
              (InsertMany "onboarding_steps" (defaultSteps (sh_newDate sh d).2))
              (sh_insertMany sh "onboarding_steps"
                 (defaultSteps (sh_newDate sh d).2))
              "✓ Seeded onboarding_steps with default steps"
              (sh_newDate sh d).1) as [-> ->].
  done.
Qed.

Lemma seeded_quiet cs : seeded cs -> quiet (seedIfEmpty sh) cs.
Proof.
  intros (c & Hc & Hdocs) d Hd.
  assert (target d "onboarding_steps" = c) as Ht
    by (unfold target; by rewrite Hd, Hc).
  rewrite seed_nonempty_model by (by rewrite Ht). done.
Qed.

Lemma seed_grows d :
  grows (db_collections d) (db_collections (final (seedIfEmpty sh d))).
Proof.
  destruct (coll_docs (target d "onboarding_steps")) as [|doc0 docs0] eqn:Hdocs.
  - destruct (seed_empty_model d Hdocs) as [-> _].
    destruct (insert_ordered_frame (defaultSteps (db_clock d))
                (target d "onboarding_steps")) as (Ho & Hi & _).
    intros name c Hc. destruct (decide (name = "onboarding_steps")) as [->|Hne].
    + eexists. rewrite lookup_insert_eq. split; [done|].
      assert (target d "onboarding_steps" = c) as Ht
        by (unfold target; by rewrite Hc).
      rewrite Ht in Ho, Hi |- *. by rewrite Ho, Hi.
    + exists c. by rewrite lookup_insert_ne.
  - rewrite seed_nonempty_model by (by rewrite Hdocs). apply grows_refl.
Qed.

Section SeedRerun.
(** Whether the store accepts a default step does not depend on the
    clock reading it carries. *)
Hypothesis accepts_any_time :
  forall c t t',
    map (accepts c) (defaultSteps t) = map (accepts c) (defaultSteps t').

(** The seed step, run again on the collections it left, leaves them. *)
Lemma seed_fixed d :
  fixed (seedIfEmpty sh) (db_collections (final (seedIfEmpty sh d))).
Proof.
  destruct (coll_docs (target d "onboarding_steps")) as [|doc0 docs0] eqn:Hdocs.
  - destruct (seed_empty_model d Hdocs) as [Hf _]. rewrite Hf.
    set (c := target d "onboarding_steps") in *.
    assert (forall t t', exists doc rest doc' rest',
              defaultSteps t = doc :: rest ∧ defaultSteps t' = doc' :: rest'
              ∧ accepts c doc = accepts c doc') as Hsteps.
    { intros t t'. eexists _, _, _, _.
      split; [reflexivity|]. split; [reflexivity|].
      pose proof (accepts_any_time c t t') as E. by injection E. }
    destruct (Hsteps (db_clock d) 0%Z) as (doc1 & rest1 & _ & _ & Hd1 & _ & _).
    rewrite Hd1. destruct (accepts c doc1) eqn:Hacc.
    + apply quiet_fixed, seeded_quiet. eexists. rewrite lookup_insert_eq.
      split; [done|]. by apply insert_ordered_first.
    + cbn [insert_ordered]. rewrite Hacc. cbn [fst].
      intros d' Hd'.
      assert (target d' "onboarding_steps" = c) as Ht
        by (unfold target; by rewrite Hd', lookup_insert_eq).
      assert (coll_docs (target d' "onboarding_steps") = []) as Hdocs'
        by (by rewrite Ht).
      destruct (seed_empty_model d' Hdocs') as [-> _].
      destruct (Hsteps (db_clock d) (db_clock d'))
        as (doc1' & rest1' & doc2 & rest2 & E1 & -> & Ha).
      rewrite Hd1 in E1. injection E1 as <- <-.
      cbn [insert_ordered]. rewrite Ht, <- Ha, Hacc. cbn [fst].
      rewrite Hd'. apply insert_insert_eq.
  - rewrite seed_nonempty_model by (by rewrite Hdocs). cbn [final].
    apply quiet_fixed, seeded_quiet.
    unfold target in Hdocs.
    destruct (db_collections d !! "onboarding_steps") as [c|] eqn:Hc;
      [|done].
    exists c. split; [done|]. cbn in Hdocs. by rewrite Hdocs.
Qed.

End SeedRerun.

(** A seed step that ended well left a document in [onboarding_steps]. *)
Lemma seed_ok_seeded d :
  (exists c, db_collections d !! "onboarding_steps" = Some c) ->
  result (seedIfEmpty sh d) = Ok tt ->
  seeded (db_collections (final (seedIfEmpty sh d))).
Proof.
  intros [c Hc] Hok.
  assert (target d "onboarding_steps" = c) as Ht
    by (unfold target; by rewrite Hc).
  destruct (coll_docs c) as [|doc0 docs0] eqn:Hdocs.
  - assert (coll_docs (target d "onboarding_steps") = []) as Hdocs'
      by (by rewrite Ht).
    destruct (seed_empty_model d Hdocs') as [Hf Hr]. rewrite Hf.
    eexists. rewrite lookup_insert_eq. split; [done|].
    rewrite Hr in Hok. rewrite Ht in *.
    assert (exists doc rest, defaultSteps (db_clock d) = doc :: rest)
      as (doc & rest & Hsteps) by (by eexists _, _).
    rewrite Hsteps in *. destruct (accepts c doc) eqn:Hacc.
    + by apply insert_ordered_first.
    + cbn [insert_ordered] in Hok. by rewrite Hacc in Hok.
  - rewrite seed_nonempty_model by (by rewrite Ht, Hdocs). cbn [final].
    exists c. split; [done|]. by rewrite Hdocs.
Qed.

(** *** The whole script *)

Lemma settled_lookup name validator (cs cs' : gmap string Collection) :
  cs' !! name = cs !! name ->
  settled name validator cs -> settled name validator cs'.
Proof. intros E (c & Hc & Ho). exists c. by rewrite E. Qed.

Lemma usersIndexes_NoDup : NoDup (map idx_name usersIndexes).
Proof. compute_done. Qed.

Lemma onboardingStepsIndexes_NoDup : NoDup (map idx_name onboardingStepsIndexes).
Proof. compute_done. Qed.

Local Abbreviation body line :=
  (ensureCollections sh ;;; ensureAllIndexes sh ;;; seedIfEmpty sh ;;;
   print line).

Lemma init_mongo_body d :
  init_mongo sh d =
    body ("Initialization complete on database '" +:+ db_name d +:+ "'") d.
Proof.
  unfold init_mongo.
  rewrite (bind_outcome_ok _ _ d d [] (db_name d)) by done.
  cbv zeta. cbn [sh_getName shell app]. by destruct (body _ d).
Qed.

Lemma ensureCollections_model d :
  let o := ensureCollections sh d in
  result o = Ok tt
  ∧ settled "users" usersSchema (db_collections (final o))
  ∧ settled "onboarding_steps" onboardingStepsSchema (db_collections (final o)).
Proof.
  cbv zeta. unfold ensureCollections.
  destruct (ensureCollection_model "users" usersSchema d) as [Hr1 Hf1].
  rewrite (bind_ok _ _ _ _ Hr1). cbn [final result].
  set (d1 := final (ensureCollectionWithValidator sh "users" usersSchema None d))
    in *.
  destruct (ensureCollection_model "onboarding_steps" onboardingStepsSchema d1)
    as [Hr2 Hf2].
  split; [done|]. split.
  - apply (settled_lookup _ _ (db_collections d1)).
    + by apply ensureCollection_other.
    + rewrite Hf1. apply ensured_settled.
  - rewrite Hf2. apply ensured_settled.
Qed.

Lemma ensureCollections_quiet cs :
  settled "users" usersSchema cs ->
  settled "onboarding_steps" onboardingStepsSchema cs ->
  quiet (ensureCollections sh) cs.
Proof. intros H1 H2. apply quiet_seq; by apply settled_quiet. Qed.

Lemma ensureAllIndexes_quiet cs :
  indexed "users" usersIndexes cs ->
  indexed "onboarding_steps" onboardingStepsIndexes cs ->
  quiet (ensureAllIndexes sh) cs.
Proof. intros H1 H2. apply quiet_seq; by apply indexed_quiet. Qed.

(** The two index steps: they end well with every name in place, or one
    fails and then both, run again, fail and change nothing. *)
Lemma ensureAllIndexes_model d :
  let o := ensureAllIndexes sh d in
  grows (db_collections d) (db_collections (final o))
  ∧ ((result o = Ok tt
      ∧ indexed "users" usersIndexes (db_collections (final o))
      ∧ indexed "onboarding_steps" onboardingStepsIndexes
          (db_collections (final o)))
     ∨ ((exists e, result o = Thrown e)
        ∧ fixed_thrown (ensureAllIndexes sh) (db_collections (final o)))).
Proof.
  cbv zeta. unfold ensureAllIndexes.
  pose proof (ensureIndexes_grows "users" usersIndexes d) as G1.
  destruct (result (ensureIndexes sh "users" usersIndexes d)) as [[]|e] eqn:Hr1.
  - rewrite (bind_ok _ _ _ _ Hr1). cbn [final result].
    pose proof (ensureIndexes_ok_indexed _ _ _ Hr1) as I1.
    set (d1 := final (ensureIndexes sh "users" usersIndexes d)) in *.
    pose proof (ensureIndexes_grows "onboarding_steps" onboardingStepsIndexes d1)
      as G2.
    split; [by eapply grows_trans|].
    destruct (result (ensureIndexes sh "onboarding_steps"
                        onboardingStepsIndexes d1)) as [[]|e] eqn:Hr2.
    + left. split; [done|]. split.
      * by eapply indexed_grows.
      * by apply ensureIndexes_ok_indexed.
    + right. split; [eauto|]. apply fixed_thrown_seq_quiet.
      * apply indexed_quiet. by eapply indexed_grows.
      * eapply ensureIndexes_thrown_fixed; [apply onboardingStepsIndexes_NoDup|done].
  - rewrite (bind_thrown _ _ _ _ Hr1). cbn [final result].
    split; [done|]. right. split; [eauto|]. apply fixed_thrown_seq.
    eapply ensureIndexes_thrown_fixed; [apply usersIndexes_NoDup|done].
Qed.

Section WholeRerun.
Hypothesis accepts_any_time :
  forall c t t',
    map (accepts c) (defaultSteps t) = map (accepts c) (defaultSteps t').

(** The collections a run leaves are left as they are by a second run;
    and after a run that ended well the second run ends well too and
    creates nothing. *)
Lemma rerun_body line d :
  let o := body line d in
  (forall line', fixed (body line') (db_collections (final o)))
  ∧ (result o = Ok tt ->
     forall line', quiet (body line') (db_collections (final o))).
Proof.
  cbv zeta.
  destruct (ensureCollections_model d) as (Hr1 & S1 & S2).
  rewrite (final_bind_ok _ _ _ _ Hr1), (result_bind_ok _ _ _ _ Hr1).
  set (d2 := final (ensureCollections sh d)) in *.
  destruct (ensureAllIndexes_model d2)
    as [G [(Hr2 & I1 & I2)|([e Hr2] & Hfix)]].
  - rewrite (final_bind_ok _ _ _ _ Hr2), (result_bind_ok _ _ _ _ Hr2).
    set (d4 := final (ensureAllIndexes sh d2)) in *.
    destruct (then_print (seedIfEmpty sh) line d4) as [-> ->].
    pose proof (seed_grows d4) as G5.
    set (d5 := final (seedIfEmpty sh d4)) in *.
    assert (quiet (ensureCollections sh) (db_collections d5)) as Q1.
    { apply ensureCollections_quiet.
      - eapply settled_grows; [exact G5|]. eapply settled_grows; [exact G|].
        exact S1.
      - eapply settled_grows; [exact G5|]. eapply settled_grows; [exact G|].
        exact S2. }
    assert (quiet (ensureAllIndexes sh) (db_collections d5)) as Q2.
    { apply ensureAllIndexes_quiet.
      - eapply indexed_grows; [exact G5|exact I1].
      - eapply indexed_grows; [exact G5|exact I2]. }
    split.
    + intros line'. apply fixed_seq_quiet; [exact Q1|].
      apply fixed_seq_quiet; [exact Q2|]. apply fixed_then_print.
      apply seed_fixed. exact accepts_any_time.
    + intros Hok line'. apply quiet_seq; [exact Q1|].
      apply quiet_seq; [exact Q2|].
      apply quiet_seq; [|apply quiet_print]. apply seeded_quiet.
      apply seed_ok_seeded; [|exact Hok].
      destruct (settled_grows _ _ _ _ G S2) as (c & Hc & _). by exists c.
  - rewrite (final_bind_thrown _ _ _ _ Hr2), (result_bind_thrown _ _ _ _ Hr2).
    split; [|intros [=]]. intros line'. apply fixed_seq_quiet.
    + apply ensureCollections_quiet.
      * eapply settled_grows; [exact G|exact S1].
      * eapply settled_grows; [exact G|exact S2].
    + apply fixed_seq_thrown. exact Hfix.
Qed.

End WholeRerun.

(** C1. Running the whole script a second time, at any later clock
    reading, on the database the first run left, leaves the collections
    (options, indexes and documents of each) as the first run left them,
    whatever the initial database was and wherever the first run ended.
    After a first run that ended well, the second run ends well too and
    creates no collection, creates no index and inserts no record. *)
Theorem reconciliation_idempotent :
  (forall c t t',
     map (accepts c) (defaultSteps t) = map (accepts c) (defaultSteps t')) ->
  forall d t',
    let once := init_mongo sh d in
    let twice := init_mongo sh (with_clock (final once) t') in
    db_collections (final twice) = db_collections (final once)
    ∧ (result once = Ok tt ->
       result twice = Ok tt ∧ creates_nothing (trace twice)).
Proof.
  intros Hacc d t'. cbv zeta.
  rewrite (init_mongo_body (with_clock _ t')), (init_mongo_body d).
  destruct (rerun_body Hacc
              ("Initialization complete on database '" +:+ db_name d +:+ "'") d)
    as [Hfixed Hquiet].
  split.
  - by apply Hfixed.
  - intros Hok. by apply (Hquiet Hok).
Qed.

End Rerun.

(** ** The properties at concrete databases *)

Section Scenarios.
Import Mongo Reconciled.




Lemma seed_records_content_witness :
  map step_summary
      (inserted (trace (seedIfEmpty permissive (fresh "myapp" 7)))) =
    [ (VStr "account", VNum 0, VBool true);
      (VStr "profile", VNum 1, VBool true);
      (VStr "preferences", VNum 2, VBool false);
      (VStr "summary", VNum 3, VBool true) ].
Proof.
  exact (proj1 (seed_records_content permissive (fresh "myapp" 7)
                  (fresh "myapp" 7) eq_refl)).
Defined.

Lemma seed_records_share_timestamp_witness :
  Forall (fun doc => obj_get "createdAt" doc = VDate 7
                     ∧ obj_get "updatedAt" doc = VDate 7)
         (inserted (trace (seedIfEmpty permissive (fresh "myapp" 7)))).
Proof.
  exact (proj1 (proj2 (seed_records_share_timestamp permissive (fresh "myapp" 7)
                         (fresh "myapp" 7) eq_refl))).
Defined.

Lemma update_branch_ignores_options_witness :
  ensureCollectionWithValidator permissive "users" usersSchema
    (Some [("validationAction", VStr "warn")]) legacy_users =
  ensureCollectionWithValidator permissive "users" usersSchema None legacy_users
  ∧ exists createOpts,
      calls (trace (ensureCollectionWithValidator permissive "users" usersSchema
                      (Some [("validationAction", VStr "warn")])
                      (fresh "myapp" 0))) =
        [ GetCollectionNames; CreateCollection "users" createOpts ]
      ∧ obj_lookup "validationAction" createOpts = Some (VStr "warn")
      ∧ obj_lookup "validationLevel" createOpts = Some (VStr "moderate").
Proof.
  split.
  - destruct (update_branch_ignores_options permissive "users" usersSchema
                legacy_users legacy_users ["users"] eq_refl) as [Hupdate _].
    apply Hupdate. compute_done.
  - destruct (update_branch_ignores_options permissive "users" usersSchema
                (fresh "myapp" 0) (fresh "myapp" 0) [] eq_refl) as [_ Hcreate].
    destruct (Hcreate ltac:(by apply not_elem_of_nil)
                [("validationAction", VStr "warn")] ltac:(compute_done))
      as (createOpts & Hcalls & Hlookup).
    exists createOpts. split; [exact Hcalls|]. split; by rewrite Hlookup.
Defined.



(** C5 as the specification words it fails: on the fresh database the
    script creates eight indexes, six of them on [users], not seven and
    five. *)
Lemma fresh_database_not_seven_indexes :
  ¬ fresh_scenario 7 5 2 (trace (init_mongo permissive (fresh "myapp" 0))).
Proof. intros (_ & H & _). vm_compute in H. discriminate H. Qed.

Lemma reconciliation_idempotent_witness :
  let once := init_mongo permissive (fresh "myapp" 0) in
  let twice := init_mongo permissive (with_clock (final once) 86400000) in
  db_collections (final twice) = db_collections (final once)
  ∧ result twice = Ok tt
  ∧ creates_nothing (trace twice).
Proof.
  destruct (reconciliation_idempotent (fun _ _ => true) (fun _ _ => true)
              ltac:(reflexivity) (fresh "myapp" 0) 86400000) as [Hsame Hquiet].
  split; [exact Hsame|]. apply Hquiet. vm_compute. reflexivity.
Defined.

Lemma ensureCollection_failure_propagates_witness :
  ensureCollectionWithValidator read_only "users" usersSchema None
    (fresh "myapp" 0) =
    mkOutcome (fresh "myapp" 0)
      [ Called GetCollectionNames;
        Called (CreateCollection "users" (defaultCreateOptions usersSchema)) ]
      (Thrown unauthorized)
  ∧ ensureCollectionWithValidator read_only "users" usersSchema None
      legacy_users =
      mkOutcome legacy_users
        [ Called GetCollectionNames;
          Called (RunCommand (collModCommand "users" usersSchema)) ]
        (Thrown unauthorized)
  ∧ init_mongo read_only (fresh "myapp" 0) =
      mkOutcome (final (ensureCollections read_only (fresh "myapp" 0)))
        (trace (ensureCollections read_only (fresh "myapp" 0)))
        (Thrown unauthorized)
  ∧ (let o1 := ensureCollectionWithValidator cannot_create "users" usersSchema
                 None legacy_users in
     let o2 := ensureCollectionWithValidator cannot_create "onboarding_steps"
                 onboardingStepsSchema None (final o1) in
     init_mongo cannot_create legacy_users =
       mkOutcome (final o2) (trace o1 ++ trace o2) (Thrown unauthorized))
  ∧ InitDb.init_db (Some "mongodb://localhost:5000") (Some "myapp")
      "init_mongo.js" (fun _ _ => InitDb.mkSpawnResult None (Some 1%Z)) = 1%Z.
Proof.
  destruct (ensureCollection_failure_propagates read_only "users" usersSchema
              None (fresh "myapp" 0) (fresh "myapp" 0) [] (fresh "myapp" 0)
              unauthorized eq_refl) as (Hcreate & _ & Hrun & _ & Hexit).
  destruct (ensureCollection_failure_propagates read_only "users" usersSchema
              None legacy_users legacy_users ["users"] legacy_users
              unauthorized eq_refl) as (_ & Hmodify & _).
  destruct (ensureCollection_failure_propagates cannot_create "users"
              usersSchema None legacy_users legacy_users ["users"] legacy_users
              unauthorized eq_refl) as (_ & _ & _ & Hsecond & _).
  split; [|split; [|split; [|split]]].
  - apply Hcreate; [apply not_elem_of_nil|reflexivity].
  - apply Hmodify; [compute_done|reflexivity].
  - apply Hrun. vm_compute. reflexivity.
  - apply Hsecond; vm_compute; reflexivity.
  - apply Hexit; [reflexivity|reflexivity|lia|reflexivity].
Defined.

End Scenarios.

(** ** More on the script: what it prints and where it stops *)

Section Output.
Context {St : Type} (db : Shell St).

Lemma printed_app (t1 t2 : list Event) :
  printed (t1 ++ t2) = printed t1 ++ printed t2.
Proof. unfold printed. apply omap_app. Qed.

Lemma forEach_callback_printed name live specs :
  forall s,
    let o := forEach (ensureIndexes_callback db name (map idx_name live))
               specs s in
    result o = Ok tt ->
    printed (trace o) = map (indexLine live name) specs.
Proof.
  induction specs as [|idx specs IH]; intros s o Hok; subst o; [done|].
  cbn [forEach map] in *. unfold indexLine at 1, includes.
  destruct (decide (idx_name idx ∈ map idx_name live)) as [Hin|Habs].
  - rewrite bool_decide_eq_true_2 by done.
    rewrite (bind_outcome_ok _ _ _ _ _ _ (callback_present db _ _ _ s Hin))
      in Hok |- *.
    cbn [trace result] in *. rewrite printed_app. cbn [printed omap app].
    f_equal. by apply IH.
  - rewrite bool_decide_eq_false_2 by done.
    destruct (sh_createIndex db name (idx_key idx) idx s)
      as [s2 [r|e]] eqn:Hcall.
    + rewrite (bind_outcome_ok _ _ _ _ _ _
                 (callback_created db _ _ _ _ _ _ Habs Hcall)) in Hok |- *.
      cbn [trace result] in *. rewrite printed_app. cbn [printed omap app].
      f_equal. by apply IH.
    + rewrite (bind_outcome_thrown _ _ _ _ _ _
                 (callback_thrown db _ _ _ _ _ _ Habs Hcall)) in Hok.
      by cbn in Hok.
Qed.

Lemma ensureIndexes_printed name specs s s1 live :
  sh_getIndexes db name s = (s1, Ok live) ->
  result (ensureIndexes db name specs s) = Ok tt ->
  printed (trace (ensureIndexes db name specs s))
  = map (indexLine live name) specs.
Proof.
  intros Hlive Hok.
  rewrite (ensureIndexes_listed db _ _ _ _ _ Hlive) in Hok |- *.
  cbn [trace result] in *.
  change (Called ?c :: ?l) with ([Called c] ++ l).
  rewrite printed_app. cbn [printed omap app].
  by apply forEach_callback_printed.
Qed.

(** X1. When [ensureIndexes] ends well it has printed exactly one line
    per spec, in the order of the list: the "already exists" line for a
    name that was live, the "Created index" line for the others. *)
Theorem ensureIndexes_prints_each_spec name specs s s1 live :
  sh_getIndexes db name s = (s1, Ok live) ->
  let o := ensureIndexes db name specs s in
  result o = Ok tt ->
  printed (trace o) = map (indexLine live name) specs.
Proof. intros Hlive o Hok. by apply (ensureIndexes_printed _ _ _ _ _ Hlive). Qed.

(** *** How the two properties of a part pass through sequencing *)

Lemma prints_marked_call {A} c (f : St -> St * Result A) :
  prints_marked (call c f).
Proof. intros s. by constructor. Qed.

Lemma prints_marked_print line : marked line -> prints_marked (@print St line).
Proof. intros H s. by repeat constructor. Qed.

Lemma prints_marked_silent {A} (m : M St A) :
  (forall s, trace (m s) = []) -> prints_marked m.
Proof. intros H s. rewrite H. constructor. Qed.

Lemma prints_marked_bind {A B} (m : M St A) (k : A -> M St B) :
  prints_marked m -> (forall a, prints_marked (k a)) -> prints_marked (bind m k).
Proof.
  intros Hm Hk s. unfold bind. destruct (result (m s)) as [a|e] eqn:Hr.
  - cbn [trace]. rewrite printed_app. apply Forall_app. split; [apply Hm|apply Hk].
  - apply Hm.
Qed.

Lemma prints_marked_forEach {A} (f : A -> M St unit) xs :
  (forall x, prints_marked (f x)) -> prints_marked (forEach f xs).
Proof.
  intros Hf. induction xs as [|x xs IH]; [by apply prints_marked_silent|].
  cbn [forEach]. by apply prints_marked_bind.
Qed.






(** *** The steps *)

Lemma ensureCollection_marked name validator options :
  prints_marked (ensureCollectionWithValidator db name validator options).
Proof.
  unfold ensureCollectionWithValidator.
  apply prints_marked_bind; [apply prints_marked_call|]. intros names.
  destruct (negb (includes names name));
    (apply prints_marked_bind; [apply prints_marked_call|]); intros _;
    apply prints_marked_print; by eexists.
Qed.


Lemma ensureIndexes_marked name specs :
  prints_marked (ensureIndexes db name specs).
Proof.
  unfold ensureIndexes.
  apply prints_marked_bind; [apply prints_marked_call|]. intros live.
  apply prints_marked_forEach. intros idx. unfold ensureIndexes_callback.
  destruct (negb (includes (map idx_name live) (idx_name idx))).
  - apply prints_marked_bind; [apply prints_marked_call|]. intros _.
    apply prints_marked_print. by eexists.
  - apply prints_marked_print. by eexists.
Qed.


Lemma seedIfEmpty_marked : prints_marked (seedIfEmpty db).
Proof.
  unfold seedIfEmpty.
  apply prints_marked_bind; [apply prints_marked_call|]. intros n.
  destruct (bool_decide (n = 0%N)).
  - apply prints_marked_bind; [by apply prints_marked_silent|]. intros now.
    apply prints_marked_bind; [apply prints_marked_call|]. intros _.
    apply prints_marked_print. by eexists.
  - apply prints_marked_print. by eexists.
Qed.




(** *** The last line *)

Lemma completionLine_unmarked database : ¬ marked (completionLine database).
Proof. intros [rest H]. unfold completionLine in H. simpl in H. by injection H. Qed.

Lemma last_line_bind {A} (m : M St A) (k : A -> M St unit) line s :
  (forall a s', result (k a s') = Ok tt ->
                last (trace (k a s')) = Some (Printed line)) ->
  result (bind m k s) = Ok tt ->
  last (trace (bind m k s)) = Some (Printed line).
Proof.
  intros Hk. unfold bind. destruct (result (m s)) as [a|e]; [|done].
  cbn [trace result]. intros Hok. by rewrite last_app, (Hk _ _ Hok).
Qed.

Lemma marked_when_thrown_bind {A} (m : M St A) (k : A -> M St unit) :
  prints_marked m ->
  (forall a s e, result (k a s) = Thrown e ->
                 Forall marked (printed (trace (k a s)))) ->
  forall s e,
    result (bind m k s) = Thrown e ->
    Forall marked (printed (trace (bind m k s))).
Proof.
  intros Hm Hk s e. unfold bind. destruct (result (m s)) as [a|e'].
  - cbn [trace result]. intros He. rewrite printed_app. apply Forall_app.
    split; [apply Hm|by apply (Hk a _ e)].
  - cbn [trace]. intros _. apply Hm.
Qed.

(** X3. The script prints its completion line exactly when every step
    ended well: a run that ends well ends with the line "Initialization
    complete on database" for the name [db.getName()] gave, and a run
    that ends with an error has not printed that line, for any name. *)
Theorem completion_line_iff_success s :
  let o := init_mongo db s in
  (result o = Ok tt ->
   last (trace o) = Some (Printed (completionLine (sh_getName db s))))
  ∧ (forall e, result o = Thrown e ->
     forall database, completionLine database ∉ printed (trace o)).
Proof.
  cbv zeta. unfold init_mongo.
  rewrite (bind_outcome_ok _ _ s s [] (sh_getName db s)) by done.
  cbv zeta. cbn [trace result app]. split.
  - repeat (apply last_line_bind; intros _ ?). by intros _.
  - intros e He database Hin.
    apply (completionLine_unmarked database).
    assert (Forall marked (printed (trace
              ((ensureCollections db ;;; ensureAllIndexes db ;;;
                seedIfEmpty db ;;;
                print ("Initialization complete on database '"
                       +:+ sh_getName db s +:+ "'")) s)))) as Hall.
    { revert He. generalize e. generalize s at 2 4.
      apply marked_when_thrown_bind.
      { unfold ensureCollections. apply prints_marked_bind; [|intros _];
          apply ensureCollection_marked. }
      intros _. apply marked_when_thrown_bind.
      { unfold ensureAllIndexes. apply prints_marked_bind; [|intros _];
          apply ensureIndexes_marked. }
      intros _. apply marked_when_thrown_bind; [apply seedIfEmpty_marked|].
      by intros _ s0 e0. }
    rewrite Forall_forall in Hall. by apply Hall.
Qed.

End Output.

(** ** More on the script over the store model *)

Section ModelOutput.
Import Mongo Reconciled.
Context (can_build : Collection -> IndexSpec -> bool).
Context (accepts : Collection -> Obj -> bool).
Local Abbreviation sh := (shell can_build accepts).

Lemma settled_options name validator cs :
  settled name validator cs ->
  exists c,
    cs !! name = Some c
    ∧ obj_get "validator" (coll_options c) = VObj [("$jsonSchema", validator)]
    ∧ obj_get "validationLevel" (coll_options c) = VStr "moderate"
    ∧ obj_get "validationAction" (coll_options c) = VStr "error".
Proof.
  intros (c & Hc & Ho). rewrite collMod_options_command in Ho.
  exists c. split; [done|]. unfold obj_get. rewrite <- Ho.
  rewrite (obj_lookup_assign_source "validator"
             (VObj [("$jsonSchema", validator)]) _ _
             (defaultCreateOptions_NoDup validator) eq_refl).
  rewrite (obj_lookup_assign_source "validationLevel" (VStr "moderate") _ _
             (defaultCreateOptions_NoDup validator) eq_refl).
  rewrite (obj_lookup_assign_source "validationAction" (VStr "error") _ _
             (defaultCreateOptions_NoDup validator) eq_refl).
  done.
Qed.

(** X5. A run that ends well leaves the database in conformance: both
    collections exist and carry the script's validator with level
    [moderate] and action [error]; every index name of the two lists is
    on its collection; and [onboarding_steps] is not empty. This holds
    from every initial database, for every store behaviour. *)
Theorem successful_run_conforms d :
  let o := init_mongo sh d in
  result o = Ok tt ->
  (exists c,
     db_collections (final o) !! "users" = Some c
     ∧ obj_get "validator" (coll_options c) = VObj [("$jsonSchema", usersSchema)]
     ∧ obj_get "validationLevel" (coll_options c) = VStr "moderate"
     ∧ obj_get "validationAction" (coll_options c) = VStr "error"
     ∧ forall idx, idx ∈ usersIndexes ->
                   idx_name idx ∈ map idx_name (coll_indexes c))
  ∧ (exists c,
       db_collections (final o) !! "onboarding_steps" = Some c
       ∧ obj_get "validator" (coll_options c)
           = VObj [("$jsonSchema", onboardingStepsSchema)]
       ∧ obj_get "validationLevel" (coll_options c) = VStr "moderate"
       ∧ obj_get "validationAction" (coll_options c) = VStr "error"
       ∧ (forall idx, idx ∈ onboardingStepsIndexes ->
                      idx_name idx ∈ map idx_name (coll_indexes c))
       ∧ coll_docs c ≠ []).
Proof.
  cbv zeta. rewrite init_mongo_body.
  destruct (ensureCollections_model can_build accepts d) as (Hr1 & S1 & S2).
  rewrite (final_bind_ok _ _ _ _ Hr1), (result_bind_ok _ _ _ _ Hr1).
  set (d2 := final (ensureCollections sh d)) in *.
  destruct (ensureAllIndexes_model can_build accepts d2)
    as [G [(Hr2 & I1 & I2)|([e Hr2] & _)]].
  2: { by rewrite (result_bind_thrown _ _ _ _ Hr2). }
  rewrite (final_bind_ok _ _ _ _ Hr2), (result_bind_ok _ _ _ _ Hr2).
  set (d4 := final (ensureAllIndexes sh d2)) in *.
  destruct (then_print (seedIfEmpty sh)
              ("Initialization complete on database '" +:+ db_name d +:+ "'")
              d4) as [-> ->].
  intros Hok. pose proof (seed_grows can_build accepts d4) as G5.
  assert (grows (db_collections d2) (db_collections (final (seedIfEmpty sh d4))))
    as G25 by (by eapply grows_trans).
  destruct (settled_options _ _ _ (settled_grows _ _ _ _ G25 S1))
    as (cu & Hcu & Hv1 & Hl1 & Ha1).
  destruct (settled_options _ _ _ (settled_grows _ _ _ _ G25 S2))
    as (cs & Hcs & Hv2 & Hl2 & Ha2).
  destruct (indexed_grows _ _ _ _ G5 I1) as (cu' & Hcu' & Hi1).
  destruct (indexed_grows _ _ _ _ G5 I2) as (cs' & Hcs' & Hi2).
  destruct (seed_ok_seeded can_build accepts d4) as (cs'' & Hcs'' & Hdocs);
    [|exact Hok|].
  { destruct (settled_grows _ _ _ _ G S2) as (c & Hc & _). by exists c. }
  assert (cu' = cu) as -> by congruence.
  assert (cs' = cs) as -> by congruence.
  assert (cs'' = cs) as -> by congruence.
  split; [exists cu|exists cs]; repeat (split; [assumption|]); assumption.
Qed.

(** *** The script on a database that is already initialised *)

Lemma printed_bind_ok {A B} (m : M Db A) (k : A -> M Db B) d a :
  result (m d) = Ok a ->
  printed (trace (bind m k d)) =
    printed (trace (m d)) ++ printed (trace (k a (final (m d)))).
Proof. intros H. by rewrite (trace_bind_ok _ _ _ _ H), printed_app. Qed.

(** The collection after the modify command of the update branch. *)
Lemma ensureCollection_present_model name validator d c :
  db_collections d !! name = Some c ->
  ensureCollectionWithValidator sh name validator None d =
    mkOutcome
      (with_collections d
         (<[name := mkCollection
                      (Object_assign (coll_options c)
                         (defaultCreateOptions validator))
                      (coll_indexes c) (coll_docs c)]> (db_collections d)))
      [ Called GetCollectionNames;
        Called (RunCommand (collModCommand name validator));
        Printed (updatedLine name) ]
      (Ok tt).
Proof.
  intros Hc.
  assert (sh_getCollectionNames sh d = (d, Ok (map_to_list (db_collections d)).*1))
    as Hnames by done.
  rewrite (ensureCollection_present sh _ _ _ _ _ _ Hnames)
    by (apply elem_of_collection_names; eauto).
  assert (sh_runCommand sh (collModCommand name validator) d
          = (with_collections d
               (<[name := mkCollection
                    (Object_assign (coll_options c)
                       (defaultCreateOptions validator))
                    (coll_indexes c) (coll_docs c)]> (db_collections d)),
             Ok (VObj [("ok", VNum 1)]))) as Hrun.
  { cbn [sh_runCommand shell]. unfold runCommand.
    change (obj_lookup "collMod" (collModCommand name validator))
      with (Some (VStr name)).
    cbv iota beta. by rewrite Hc, collMod_options_command. }
  cbv zeta. by rewrite (bind_call_ok _ _ _ _ _ _ Hrun).
Qed.

Lemma ensureIndexes_present_model name specs d c :
  db_collections d !! name = Some c ->
  (forall idx, idx ∈ specs -> idx_name idx ∈ map idx_name (coll_indexes c)) ->
  let o := ensureIndexes sh name specs d in
  final o = d ∧ result o = Ok tt
  ∧ printed (trace o) = map (existingIndexLine name) specs.
Proof.
  intros Hc Hall o. subst o.
  assert (sh_getIndexes sh name d = (d, Ok (coll_indexes c))) as Hlive
    by (by rewrite getIndexes_model, Hc).
  pose proof (ensureIndexes_printed sh name specs d d _ Hlive) as Hp.
  rewrite (ensureIndexes_live _ _ _ _ _ _ Hc) in Hp |- *.
  cbv zeta in *. cbn [final result trace] in *.
  destruct (loop_all_present can_build accepts name
              (map idx_name (coll_indexes c)) specs d Hall) as (Hf & Hr & _).
  split; [done|]. split; [done|]. rewrite (Hp Hr).
  apply map_ext_in. intros idx Hin%list_elem_of_In.
  unfold indexLine, includes. by rewrite bool_decide_eq_true_2 by auto.
Qed.

(** X4. On a database where both collections exist, every index name
    of the two lists is present and [onboarding_steps] has a document,
    the script ends well and prints exactly: the "Updated validator"
    line for each collection, the "already exists" line for each of the
    eight indexes, the line with the document count, and the completion
    line. *)
Theorem reconciled_run_output d cu cs :
  db_collections d !! "users" = Some cu ->
  db_collections d !! "onboarding_steps" = Some cs ->
  (forall idx, idx ∈ usersIndexes ->
               idx_name idx ∈ map idx_name (coll_indexes cu)) ->
  (forall idx, idx ∈ onboardingStepsIndexes ->
               idx_name idx ∈ map idx_name (coll_indexes cs)) ->
  coll_docs cs ≠ [] ->
  let o := init_mongo sh d in
  result o = Ok tt
  ∧ printed (trace o) =
      [ updatedLine "users"; updatedLine "onboarding_steps" ]
      ++ map (existingIndexLine "users") usersIndexes
      ++ map (existingIndexLine "onboarding_steps") onboardingStepsIndexes
      ++ [ countLine (N.of_nat (length (coll_docs cs)));
           completionLine (db_name d) ].
Proof.
  intros Hu Hs Hiu His Hdocs. cbv zeta. rewrite init_mongo_body.
  fold (completionLine (db_name d)).
  (* the two validator updates *)
  pose proof (ensureCollection_present_model "users" usersSchema d cu Hu) as A1.
  set (cu' := mkCollection
                (Object_assign (coll_options cu) (defaultCreateOptions usersSchema))
                (coll_indexes cu) (coll_docs cu)) in *.
  set (d1 := with_collections d (<["users" := cu']> (db_collections d))) in *.
  assert (db_collections d1 !! "onboarding_steps" = Some cs) as Hs1
    by (subst d1; cbn [db_collections with_collections];
        by rewrite lookup_insert_ne).
  pose proof (ensureCollection_present_model "onboarding_steps"
                onboardingStepsSchema d1 cs Hs1) as A2.
  set (cs' := mkCollection
                (Object_assign (coll_options cs)
                   (defaultCreateOptions onboardingStepsSchema))
                (coll_indexes cs) (coll_docs cs)) in *.
  set (d2 := with_collections d1
               (<["onboarding_steps" := cs']> (db_collections d1))) in *.
  assert (result (ensureCollections sh d) = Ok tt
          ∧ final (ensureCollections sh d) = d2
          ∧ printed (trace (ensureCollections sh d))
            = [ updatedLine "users"; updatedLine "onboarding_steps" ])
    as (REC & FEC & PEC).
  { unfold ensureCollections.
    assert (result (ensureCollectionWithValidator sh "users" usersSchema None d)
            = Ok tt) as R1 by (by rewrite A1).
    rewrite (result_bind_ok _ _ _ _ R1), (final_bind_ok _ _ _ _ R1),
      (printed_bind_ok _ _ _ _ R1).
    rewrite A1. cbn [final]. by rewrite A2. }
  assert (db_collections d2 !! "users" = Some cu') as Hu2.
  { subst d2 d1. cbn [db_collections with_collections].
    rewrite lookup_insert_ne by done. apply lookup_insert_eq. }
  assert (db_collections d2 !! "onboarding_steps" = Some cs') as Hs2.
  { subst d2. cbn [db_collections with_collections]. apply lookup_insert_eq. }
  (* the two index steps *)
  destruct (ensureIndexes_present_model "users" usersIndexes d2 cu' Hu2 Hiu)
    as (F1 & R1 & P1).
  destruct (ensureIndexes_present_model "onboarding_steps"
              onboardingStepsIndexes d2 cs' Hs2 His) as (F2 & R2 & P2).
  assert (result (ensureAllIndexes sh d2) = Ok tt
          ∧ final (ensureAllIndexes sh d2) = d2
          ∧ printed (trace (ensureAllIndexes sh d2))
            = map (existingIndexLine "users") usersIndexes
              ++ map (existingIndexLine "onboarding_steps")
                   onboardingStepsIndexes)
    as (RAI & FAI & PAI).
  { unfold ensureAllIndexes.
    rewrite (result_bind_ok _ _ _ _ R1), (final_bind_ok _ _ _ _ R1),
      (printed_bind_ok _ _ _ _ R1).
    rewrite F1. by rewrite R2, F2, P1, P2. }
  (* the seed step *)
  assert (target d2 "onboarding_steps" = cs') as Ht
    by (unfold target; by rewrite Hs2).
  pose proof (seed_nonempty_model can_build accepts d2) as S.
  rewrite Ht in S. specialize (S Hdocs).
  assert (result (seedIfEmpty sh d2) = Ok tt) as RS by (by rewrite S).
  (* together *)
  rewrite (result_bind_ok _ _ _ _ REC), (printed_bind_ok _ _ _ _ REC), FEC, PEC.
  rewrite (result_bind_ok _ _ _ _ RAI), (printed_bind_ok _ _ _ _ RAI), FAI, PAI.
  rewrite (result_bind_ok _ _ _ _ RS), (printed_bind_ok _ _ _ _ RS).
  rewrite S. split; [done|]. cbn [trace final printed omap print].
  by rewrite <- !app_assoc.
Qed.

End ModelOutput.

(** ** init_db.js: the environment file *)

Section LauncherFacts.
Import Launcher.

Lemma split_nonempty c s : split c s ≠ [].
Proof.
  destruct s as [|a s]; simpl; [done|].
  case_bool_decide; [done|]. by destruct (split c s).
Qed.

(** Joining the pieces with the separator gives the text back. *)
Lemma split_join c s : String.concat (String.String c "") (split c s) = s.
Proof.
  induction s as [|a s IH]; [done|]. cbn [split].
  pose proof (split_nonempty c s) as Hne.
  case_bool_decide as Hc.
  - subst a. destruct (split c s) as [|piece pieces] eqn:E; [done|].
    cbn [String.concat]. cbn [String.concat] in IH. by rewrite IH.
  - destruct (split c s) as [|piece pieces] eqn:E; [done|].
    destruct pieces as [|piece' pieces]; cbn [String.concat] in *.
    + by rewrite IH.
    + exact (f_equal (String.String a) IH).
Qed.

(** No piece holds the separator. *)
Lemma split_pieces c s :
  Forall (fun piece => c ∉ String.list_ascii_of_string piece) (split c s).
Proof.
  induction s as [|a s IH]; cbn [split].
  - repeat constructor. simpl. apply not_elem_of_nil.
  - case_bool_decide as Hc.
    + constructor; [simpl; apply not_elem_of_nil|done].
    + pose proof (split_nonempty c s) as Hne.
      destruct (split c s) as [|piece pieces]; [done|].
      inversion IH as [|? ? Hp Hps]; subst. constructor; [|done].
      simpl. apply not_elem_of_cons. split; [congruence|done].
Qed.

Lemma split_app_sep c k v :
  c ∉ String.list_ascii_of_string k ->
  split c (k +:+ String.String c v) = k :: split c v.
Proof.
  induction k as [|a k IH]; simpl; intros Hk.
  - by rewrite bool_decide_eq_true_2.
  - apply not_elem_of_cons in Hk as [Hne Hk].
    rewrite bool_decide_eq_false_2 by congruence. by rewrite IH.
Qed.

Lemma prefix_cut p t :
  String.prefix p t = true -> t = p +:+ substring_from (String.length p) t.
Proof.
  revert t. induction p as [|a p IH]; intros t H; [done|].
  destruct t as [|b t]; simpl in H; [done|].
  destruct (ascii_dec a b) as [->|]; [|done].
  exact (f_equal (String.String b) (IH t H)).
Qed.

Lemma prefix_app p r : String.prefix p (p +:+ r) = true.
Proof.
  induction p as [|a p IH]; simpl; [by destruct r|].
  by destruct (ascii_dec a a).
Qed.

Lemma substring_from_app p r : substring_from (String.length p) (p +:+ r) = r.
Proof. induction p as [|a p IH]; simpl; [by destruct r|done]. Qed.

Lemma assignment_export line key raw :
  key ≠ "" ->
  "="%char ∉ String.list_ascii_of_string key ->
  trim line = "export " +:+ key +:+ "=" +:+ raw ->
  assignment line = Some (key, unquote raw).
Proof.
  intros Hk Heq Htrim. unfold assignment. rewrite Htrim.
  rewrite (prefix_app "export "), (substring_from_app "export ").
  change ("=" +:+ raw) with (String.String "=" raw).
  rewrite (split_app_sep "=" key raw Heq).
  rewrite bool_decide_eq_false_2 by done. cbn [negb andb].
  pose proof (split_nonempty "=" raw) as Hne.
  rewrite bool_decide_eq_true_2
    by (destruct (split "=" raw); [done|simpl; lia]).
  by rewrite split_join.
Qed.

(** X6. A line of the environment file assigns a variable exactly when,
    trimmed, it reads [export KEY=RAW] with a non-empty [KEY] that holds
    no [=]; the variable is then [KEY] and its value [RAW] without its
    quotes. An [=] inside [RAW] is part of the value. *)
Theorem assignment_iff line key val :
  assignment line = Some (key, val) <->
  key ≠ ""
  ∧ ("="%char ∉ String.list_ascii_of_string key)
  ∧ exists raw,
      trim line = "export " +:+ key +:+ "=" +:+ raw ∧ val = unquote raw.
Proof.
  unfold assignment. split.
  - destruct (String.prefix "export " (trim line)) eqn:Hp; [|done].
    apply prefix_cut in Hp. change (String.length "export ") with 7 in Hp.
    set (r := substring_from 7 (trim line)) in *.
    pose proof (split_join "=" r) as Hjoin.
    pose proof (split_pieces "=" r) as Hpieces.
    destruct (split "=" r) as [|k rest]; [done|].
    case_bool_decide as Hk; [done|]. cbn [negb andb].
    case_bool_decide as Hrest; [|done]. intros [= <- <-].
    inversion Hpieces as [|? ? Hkey _]; subst.
    split; [done|]. split; [done|].
    exists (String.concat "=" rest). split; [|done].
    transitivity ("export " +:+ r); [exact Hp|]. f_equal. rewrite <- Hjoin.
    destruct rest as [|x xs]; [simpl in Hrest; lia|done].
  - intros (Hk & Heq & raw & Htrim & ->).
    fold (assignment line). by apply assignment_export.
Qed.

(** *** Quotes *)

Lemma endsWith_snoc c a s :
  endsWith c (s +:+ String.String a "") = bool_decide (a = c).
Proof.
  induction s as [|b s IH]; [done|].
  destruct s as [|b' s]; [done|]. exact IH.
Qed.

Lemma length_append s t :
  String.length (s +:+ t) = String.length s + String.length t.
Proof. induction s as [|a s IH]; simpl; [done|]. by rewrite IH. Qed.

Lemma substring_0_app s t : String.substring 0 (String.length s) (s +:+ t) = s.
Proof.
  induction s as [|a s IH]; simpl; [by destruct t|]. by rewrite IH.
Qed.

Lemma unquote_quoted q s :
  q = dquote ∨ q = squote ->
  unquote (String.String q (s +:+ String.String q "")) = s.
Proof.
  intros Hq. unfold unquote.
  assert (forall c, endsWith c (String.String q (s +:+ String.String q ""))
                    = bool_decide (q = c)) as Hends.
  { intros c. apply (endsWith_snoc c q (String.String q s)). }
  rewrite !Hends. unfold startsWith.
  assert ((bool_decide (q = dquote) && bool_decide (q = dquote)
           || bool_decide (q = squote) && bool_decide (q = squote)) = true)
    as ->.
  { destruct Hq as [->| ->]; by vm_compute. }
  assert (String.length (String.String q (s +:+ String.String q "")) - 2
          = String.length s) as ->.
  { cbn [String.length]. rewrite length_append. cbn [String.length]. lia. }
  apply (substring_0_app s (String.String q "")).
Qed.

(** X7. A value written between two double quotes, or between two
    single quotes, is assigned without that one pair of quotes, whatever
    is in between; a value that starts with no quote is assigned as it
    is written. *)
Theorem assignment_quotes line key :
  key ≠ "" ->
  "="%char ∉ String.list_ascii_of_string key ->
  (forall q inner,
     q = dquote ∨ q = squote ->
     trim line =
       "export " +:+ key +:+ "="
       +:+ String.String q (inner +:+ String.String q "") ->
     assignment line = Some (key, inner))
  ∧ (forall raw,
       startsWith dquote raw = false -> startsWith squote raw = false ->
       trim line = "export " +:+ key +:+ "=" +:+ raw ->
       assignment line = Some (key, raw)).
Proof.
  intros Hk Heq. split.
  - intros q inner Hq Htrim.
    rewrite (assignment_export _ _ _ Hk Heq Htrim). by rewrite unquote_quoted.
  - intros raw H1 H2 Htrim.
    rewrite (assignment_export _ _ _ Hk Heq Htrim).
    unfold unquote. by rewrite H1, H2.
Qed.

(** *** White space around a line *)

Lemma list_ascii_of_append s t :
  String.list_ascii_of_string (s +:+ t)
  = String.list_ascii_of_string s ++ String.list_ascii_of_string t.
Proof. induction s as [|a s IH]; simpl; [done|]. by rewrite IH. Qed.

Lemma strip_ws1_prefix w2 w3 space l :
  Forall (fun a => ws1 a = true) space ->
  strip w2 w3 (space ++ l) = strip w2 w3 l.
Proof.
  induction 1 as [|a space Ha _ IH]; [done|]. cbn [app strip]. by rewrite Ha.
Qed.

Lemma strip_head w2 w3 a l :
  ws1 a = false ->
  (forall b, w2 a b = false) ->
  (forall b c, w3 a b c = false) ->
  strip w2 w3 (a :: l) = a :: l.
Proof.
  intros H1 H2 H3. cbn [strip]. rewrite H1.
  destruct l as [|b [|c l]]; [done|by rewrite H2|by rewrite H2, H3].
Qed.

Lemma strip_export rest :
  strip ws2 ws3 (String.list_ascii_of_string ("export " +:+ rest))
  = String.list_ascii_of_string ("export " +:+ rest).
Proof.
  cbn [String.append String.list_ascii_of_string]. apply strip_head.
  - reflexivity.
  - intros b. unfold ws2. apply bool_decide_eq_false_2. by intros [= H _].
  - intros b c. unfold ws3. apply bool_decide_eq_false_2. intros H.
    repeat (apply elem_of_cons in H as [H|H]; [by injection H|]).
    by apply elem_of_nil in H.
Qed.

Lemma trim_outer_space space rest space' :
  Forall (fun a => ws1 a = true) (String.list_ascii_of_string space) ->
  Forall (fun a => ws1 a = true) (String.list_ascii_of_string space') ->
  trim (space +:+ ("export " +:+ rest) +:+ space') = trim ("export " +:+ rest).
Proof.
  intros Hs Hs'. unfold trim. cbv zeta. f_equal. f_equal.
  rewrite !list_ascii_of_append.
  rewrite (strip_ws1_prefix _ _ _ _ Hs).
  rewrite <- list_ascii_of_append.
  assert (forall l,
            strip ws2 ws3 (String.list_ascii_of_string ("export " +:+ rest) ++ l)
            = String.list_ascii_of_string ("export " +:+ rest) ++ l) as Hfront.
  { intros l. cbn [String.append String.list_ascii_of_string app].
    apply strip_head.
    - reflexivity.
    - intros b. unfold ws2. apply bool_decide_eq_false_2. by intros [= H _].
    - intros b c. unfold ws3. apply bool_decide_eq_false_2. intros H.
      repeat (apply elem_of_cons in H as [H|H]; [by injection H|]).
      by apply elem_of_nil in H. }
  rewrite Hfront, strip_export.
  rewrite reverse_app. apply strip_ws1_prefix. by apply Forall_reverse.
Qed.

(** X8. White space around an [export] line does not matter: with
    spaces, tabs, carriage returns or other one-byte white space before
    the word [export] and after the end of the line, the line assigns
    what it assigns without them. In particular a file with CRLF line
    ends or indented lines is read like the plain one. *)
Theorem assignment_ignores_outer_space space rest space' :
  Forall (fun a => ws1 a = true) (String.list_ascii_of_string space) ->
  Forall (fun a => ws1 a = true) (String.list_ascii_of_string space') ->
  assignment (space +:+ ("export " +:+ rest) +:+ space')
  = assignment ("export " +:+ rest).
Proof.
  intros Hs Hs'. unfold assignment. by rewrite (trim_outer_space _ _ _ Hs Hs').
Qed.

(** *** The file as a whole *)

Lemma load_line_other env line k :
  (forall v, assignment line ≠ Some (k, v)) ->
  load_line env line !! k = env !! k.
Proof.
  intros H. unfold load_line.
  destruct (assignment line) as [[k' v']|] eqn:E; [|done].
  apply lookup_insert_ne. intros ->. by apply (H v').
Qed.

Lemma foldl_load_other lines :
  forall env k,
    Forall (fun line => forall v, assignment line ≠ Some (k, v)) lines ->
    foldl load_line env lines !! k = env !! k.
Proof.
  induction lines as [|line lines IH]; intros env k H; [done|].
  apply Forall_cons in H as [Hline Hlines]. cbn [foldl].
  rewrite (IH _ _ Hlines). by apply load_line_other.
Qed.

Lemma foldl_load_last before line after env k v :
  assignment line = Some (k, v) ->
  Forall (fun line' => forall v', assignment line' ≠ Some (k, v')) after ->
  foldl load_line env (before ++ line :: after) !! k = Some v.
Proof.
  intros Hline Hafter. rewrite foldl_app. cbn [foldl].
  rewrite (foldl_load_other _ _ _ Hafter). unfold load_line at 1.
  rewrite Hline. apply lookup_insert_eq.
Qed.

(** X9. Loading the file only adds to the environment of the process
    and overrides it: a variable that no line of the file assigns keeps
    the value it had, and a variable that lines assign has the value of
    the last such line, whatever it was before. *)
Theorem load_env_precedence content env k :
  let lines := split (ascii_of_nat 10) content in
  (Forall (fun line => forall v, assignment line ≠ Some (k, v)) lines ->
   load_env content env !! k = env !! k)
  ∧ (forall before line after v,
       lines = before ++ line :: after ->
       assignment line = Some (k, v) ->
       Forall (fun line' => forall v', assignment line' ≠ Some (k, v')) after ->
       load_env content env !! k = Some v).
Proof.
  cbv zeta. unfold load_env. split.
  - apply foldl_load_other.
  - intros before line after v -> Hline Hafter. by apply foldl_load_last.
Qed.

(** X10. What the file sets is what the shell is run with: when the
    last lines of the file that assign [MONGODB_URL] and [MONGODB_DB]
    give [url] and [name], both not empty, the launcher runs [mongosh]
    once, on [url/name] with [--file] and the script, whatever the
    process environment held; when one of the two is the empty string,
    it runs nothing and exits with [1]. *)
Theorem file_settings_reach_mongosh content env script spawn
    before1 line1 after1 before2 line2 after2 url name :
  split (ascii_of_nat 10) content = before1 ++ line1 :: after1 ->
  assignment line1 = Some ("MONGODB_URL", url) ->
  Forall (fun l => forall v, assignment l ≠ Some ("MONGODB_URL", v)) after1 ->
  split (ascii_of_nat 10) content = before2 ++ line2 :: after2 ->
  assignment line2 = Some ("MONGODB_DB", name) ->
  Forall (fun l => forall v, assignment l ≠ Some ("MONGODB_DB", v)) after2 ->
  let run := main (Some content) env script spawn in
  (url ≠ "" -> name ≠ "" ->
   spawned run = [ ("mongosh", [ url +:+ "/" +:+ name; "--file"; script ]) ])
  ∧ (url = "" ∨ name = "" ->
     spawned run = [] ∧ exit_code run = 1%Z).
Proof.
  intros E1 H1 A1 E2 H2 A2 run. subst run. unfold main.
  assert (load_env content env !! "MONGODB_URL" = Some url) as ->.
  { unfold load_env. rewrite E1. by apply foldl_load_last. }
  assert (load_env content env !! "MONGODB_DB" = Some name) as ->.
  { unfold load_env. rewrite E2. by apply foldl_load_last. }
  cbn [InitDb.missing default]. split.
  - intros Hu Hn. rewrite !bool_decide_eq_false_2 by done. cbn [orb].
    by destruct (InitDb.error _).
  - intros [-> | ->].
    + by rewrite bool_decide_eq_true_2.
    + rewrite (bool_decide_eq_true_2 ("" = "")) by done.
      by rewrite orb_true_r.
Qed.

(** X11. The launcher exits with [0] exactly when both variables are
    set and not empty, the shell could be run, and its status is [0] or
    there is none (the shell was ended by a signal). *)
Theorem launcher_exit_zero_iff envFile env script spawn :
  let env' := match envFile with
              | Some content => load_env content env
              | None => env
              end in
  let url := env' !! "MONGODB_URL" in
  let name := env' !! "MONGODB_DB" in
  let result :=
    spawn "mongosh"
      [ default "" url +:+ "/" +:+ default "" name; "--file"; script ] in
  exit_code (main envFile env script spawn) = 0%Z
  <-> InitDb.missing url = false
      ∧ InitDb.missing name = false
      ∧ InitDb.error result = None
      ∧ (InitDb.status result = Some 0%Z ∨ InitDb.status result = None).
Proof.
  cbv zeta. unfold main.
  set (env' := match envFile with
               | Some content => load_env content env
               | None => env
               end).
  destruct (InitDb.missing (env' !! "MONGODB_URL")); cbn [orb exit_code].
  { split; [done|]. by intros [? _]. }
  destruct (InitDb.missing (env' !! "MONGODB_DB")); cbn [orb exit_code].
  { split; [done|]. by intros (_ & ? & _). }
  destruct (InitDb.error _) as [e|]; cbn [exit_code].
  { split; [done|]. by intros (_ & _ & ? & _). }
  destruct (InitDb.status _) as [n|].
  - case_bool_decide as Hn.
    + subst n. split; [|done]. intros _. repeat split. by left.
    + split; [done|]. intros (_ & _ & _ & [[= ->]|[=]]). done.
  - split; [|done]. intros _. repeat split. by right.
Qed.

End LauncherFacts.

(** ** The further properties at concrete inputs *)

Section MoreScenarios.
Import Mongo Reconciled Launcher.

(** The launcher as a whole exits as [InitDb.init_db] says, on the
    environment after the file is loaded. *)
Lemma main_exit_code envFile env script spawn :
  let env' := match envFile with
              | Some content => load_env content env
              | None => env
              end in
  exit_code (main envFile env script spawn)
  = InitDb.init_db (env' !! "MONGODB_URL") (env' !! "MONGODB_DB") script spawn.
Proof.
  cbv zeta. unfold main, InitDb.init_db.
  destruct (InitDb.missing _ || InitDb.missing _); [done|].
  by destruct (InitDb.error _).
Qed.

Lemma ensureIndexes_prints_each_spec_witness :
  printed (trace (ensureIndexes permissive "users" usersIndexes legacy_users)) =
    [ "• Index 'uniq_email' already exists on 'users'";
      "✓ Created index 'uniq_username' on collection 'users'";
      "✓ Created index 'oauth_provider_id' on collection 'users'";
      "✓ Created index 'onboarding_currentStep' on collection 'users'";
      "✓ Created index 'createdAt_desc' on collection 'users'";
      "✓ Created index 'updatedAt_desc' on collection 'users'" ].
Proof.
  apply (ensureIndexes_prints_each_spec permissive "users" usersIndexes
           legacy_users legacy_users
           [ id_index;
             mkIndexSpec [("username", VNum 1)] "uniq_email" None None ]).
  - reflexivity.
  - vm_compute. reflexivity.
Defined.


Lemma completion_line_iff_success_witness :
  last (trace (init_mongo permissive (fresh "myapp" 0)))
  = Some (Printed "Initialization complete on database 'myapp'")
  ∧ "Initialization complete on database 'myapp'"
    ∉ printed (trace (init_mongo read_only (fresh "myapp" 0))).
Proof.
  split.
  - apply (proj1 (completion_line_iff_success permissive (fresh "myapp" 0))).
    vm_compute. reflexivity.
  - refine (proj2 (completion_line_iff_success read_only (fresh "myapp" 0))
              unauthorized _ "myapp").
    vm_compute. reflexivity.
Defined.

Lemma reconciled_run_output_witness :
  printed (trace (init_mongo permissive reconciled)) =
    [ "✓ Updated validator for existing collection 'users'";
      "✓ Updated validator for existing collection 'onboarding_steps'";
      "• Index 'uniq_email' already exists on 'users'";
      "• Index 'uniq_username' already exists on 'users'";
      "• Index 'oauth_provider_id' already exists on 'users'";
      "• Index 'onboarding_currentStep' already exists on 'users'";
      "• Index 'createdAt_desc' already exists on 'users'";
      "• Index 'updatedAt_desc' already exists on 'users'";
      "• Index 'uniq_key' already exists on 'onboarding_steps'";
      "• Index 'order_asc' already exists on 'onboarding_steps'";
      "• onboarding_steps already contains 1 documents";
      "Initialization complete on database 'myapp'" ].
Proof.
  refine (proj2 (reconciled_run_output (fun _ _ => true) (fun _ _ => true)
                   reconciled
                   (mkCollection [] (id_index :: usersIndexes) [])
                   (mkCollection [] (id_index :: onboardingStepsIndexes)
                      [ [("key", VStr "welcome")] ])
                   _ _ _ _ _)).
  - vm_compute. reflexivity.
  - vm_compute. reflexivity.
  - intros idx H. cbn [coll_indexes map].
    repeat (apply elem_of_cons in H as [->|H]; [compute_done|]).
    by apply elem_of_nil in H.
  - intros idx H. cbn [coll_indexes map].
    repeat (apply elem_of_cons in H as [->|H]; [compute_done|]).
    by apply elem_of_nil in H.
  - done.
Defined.

Lemma successful_run_conforms_witness :
  let o := init_mongo permissive (fresh "myapp" 0) in
  (exists c,
     db_collections (final o) !! "users" = Some c
     ∧ obj_get "validationAction" (coll_options c) = VStr "error")
  ∧ (exists c,
       db_collections (final o) !! "onboarding_steps" = Some c
       ∧ coll_docs c ≠ []).
Proof.
  cbv zeta.
  destruct (successful_run_conforms (fun _ _ => true) (fun _ _ => true)
              (fresh "myapp" 0)) as [(cu & Hu & _ & _ & Ha & _) Hsteps].
  { vm_compute. reflexivity. }
  destruct Hsteps as (cs & Hs & _ & _ & _ & _ & Hdocs).
  split.
  - exists cu. split; [exact Hu|exact Ha].
  - exists cs. split; [exact Hs|exact Hdocs].
Defined.

Lemma assignment_iff_witness :
  assignment "  export TOKEN=a=b=" = Some ("TOKEN", "a=b=")
  ∧ forall val, assignment "TOKEN=a" ≠ Some ("TOKEN", val).
Proof.
  split.
  - apply (proj2 (assignment_iff "  export TOKEN=a=b=" "TOKEN" "a=b=")).
    split; [done|]. split; [compute_done|]. by exists "a=b=".
  - intros val H.
    apply (proj1 (assignment_iff "TOKEN=a" "TOKEN" val)) in H
      as (_ & _ & raw & Htrim & _).
    vm_compute in Htrim. discriminate Htrim.
Defined.

Lemma assignment_quotes_witness :
  assignment "export MONGODB_DB='my app'" = Some ("MONGODB_DB", "my app")
  ∧ assignment "export MONGODB_DB=it's" = Some ("MONGODB_DB", "it's").
Proof.
  destruct (assignment_quotes "export MONGODB_DB='my app'" "MONGODB_DB")
    as [Hquoted _]; [done|compute_done|].
  destruct (assignment_quotes "export MONGODB_DB=it's" "MONGODB_DB")
    as [_ Hplain]; [done|compute_done|].
  split.
  - apply (Hquoted squote "my app"); [by right|reflexivity].
  - apply (Hplain "it's"); reflexivity.
Defined.

Lemma assignment_ignores_outer_space_witness :
  assignment (String.String " " (String.String (ascii_of_nat 9) "")
              +:+ ("export " +:+ "A=1")
              +:+ String.String (ascii_of_nat 13) "")
  = assignment ("export " +:+ "A=1").
Proof.
  apply assignment_ignores_outer_space; by repeat constructor.
Defined.

Lemma load_env_precedence_witness :
  load_env sample_file {[ "MONGODB_DB" := "old"; "HOME" := "/root" ]}
    !! "HOME" = Some "/root"
  ∧ load_env sample_file {[ "MONGODB_DB" := "old"; "HOME" := "/root" ]}
      !! "MONGODB_DB" = Some "myapp".
Proof.
  split.
  - destruct (load_env_precedence sample_file
                {[ "MONGODB_DB" := "old"; "HOME" := "/root" ]} "HOME")
      as [Hkept _].
    rewrite Hkept; [reflexivity|].
    repeat constructor; intros v H; vm_compute in H; discriminate H.
  - destruct (load_env_precedence sample_file
                {[ "MONGODB_DB" := "old"; "HOME" := "/root" ]} "MONGODB_DB")
      as [_ Hlast].
    apply (Hlast
             [ "# written by startup.sh";
               "export MONGODB_URL='mongodb://localhost:5000'";
               "export MONGODB_DB=test" ]
             "export MONGODB_DB=myapp" [ "" ]).
    + reflexivity.
    + reflexivity.
    + repeat constructor. intros v H. vm_compute in H. discriminate H.
Defined.

Lemma file_settings_reach_mongosh_witness :
  spawned (main (Some sample_file)
             {[ "MONGODB_URL" := "mongodb://elsewhere:27017" ]}
             "init_mongo.js" (fun _ _ => InitDb.mkSpawnResult None (Some 0%Z)))
  = [ ("mongosh",
       [ "mongodb://localhost:5000/myapp"; "--file"; "init_mongo.js" ]) ].
Proof.
  destruct (file_settings_reach_mongosh sample_file
              {[ "MONGODB_URL" := "mongodb://elsewhere:27017" ]}
              "init_mongo.js" (fun _ _ => InitDb.mkSpawnResult None (Some 0%Z))
              [ "# written by startup.sh" ]
              "export MONGODB_URL='mongodb://localhost:5000'"
              [ "export MONGODB_DB=test"; "export MONGODB_DB=myapp"; "" ]
              [ "# written by startup.sh";
                "export MONGODB_URL='mongodb://localhost:5000'";
                "export MONGODB_DB=test" ]
              "export MONGODB_DB=myapp" [ "" ]
              "mongodb://localhost:5000" "myapp") as [Hrun _].
  - reflexivity.
  - reflexivity.
  - repeat constructor; intros v H; vm_compute in H; discriminate H.
  - reflexivity.
  - reflexivity.
  - repeat constructor. intros v H. vm_compute in H. discriminate H.
  - by apply Hrun.
Defined.

Lemma launcher_exit_zero_iff_witness :
  exit_code (main None {[ "MONGODB_URL" := "mongodb://localhost:5000";
                          "MONGODB_DB" := "myapp" ]}
               "init_mongo.js" (fun _ _ => InitDb.mkSpawnResult None None))
  = 0%Z
  ∧ exit_code (main None {[ "MONGODB_URL" := "mongodb://localhost:5000" ]}
                 "init_mongo.js"
                 (fun _ _ => InitDb.mkSpawnResult None (Some 0%Z)))
    ≠ 0%Z.
Proof.
  split.
  - apply (proj2 (launcher_exit_zero_iff None _ _ _)).
    repeat split; try reflexivity. by right.
  - intros H.
    apply (proj1 (launcher_exit_zero_iff None _ _ _)) in H as (_ & Hname & _).
    vm_compute in Hname. discriminate Hname.
Defined.

End MoreScenarios.
